(** * user-management-microservice: resilience layer and registration workflow

    A shallow embedding of [app.py], [dto.py] and [models.py] of the
    user-management microservice, and the properties of its registration
    workflow, retry decorators and circuit breaker.

    Python statements become computations of a state-and-exception monad
    over an explicit [World]: the clock read by [time.time()], the answers
    of the discovery registry, of the login service and of the database,
    the [customer] table, the module-level [circuit_breaker] object and a
    journal of the observable effects (log lines, sleeps, HTTP posts). *)

From Stdlib Require Import ZArith List Bool Lia.
From stdpp Require Import gmap strings.
Import ListNotations.

Local Open Scope Z_scope.

(** ** Exceptions

    Every exception of the model is an instance of Python's [Exception]
    (what [except Exception] catches); interpreter-level [BaseException]s
    such as [KeyboardInterrupt] are not modelled. [RetryError] is the
    exception of the [tenacity] package; it carries the outcome of the last
    attempt. *)

Inductive ExcClass :=
| ExceptionC          (* a plain Exception(...) *)
| TypeErrorC          (* the dataclass constructor called with wrong keys; None - float *)
| BadRequestC         (* request.json on an unreadable body *)
| RegistryErrorC      (* eureka_client.get_service_instances failing *)
| RequestExceptionC   (* requests.post: connection error, timeout *)
| HTTPErrorC          (* response.raise_for_status() *)
| SQLAlchemyErrorC    (* a failing database round trip *)
| IntegrityErrorC     (* duplicate primary key at flush *)
| PendingRollbackErrorC. (* a statement on a session whose commit has failed *)

Inductive exn :=
| Exc (cls : ExcClass) (msg : string)
| RetryError (last_attempt : exn).

(** ** A state-and-exception monad *)

Inductive outcome (A : Type) :=
| Ok (a : A)
| Raise (e : exn).
Arguments Ok {A} a.
Arguments Raise {A} e.

Definition St (S A : Type) : Type := S -> outcome A * S.

Definition ret {S A} (a : A) : St S A := fun s => (Ok a, s).

Definition raise {S A} (e : exn) : St S A := fun s => (Raise e, s).

Definition bind {S A B} (m : St S A) (k : A -> St S B) : St S B :=
  fun s => match m s with
           | (Ok a, s1) => k a s1
           | (Raise e, s1) => (Raise e, s1)
           end.

(** [try: body except Exception as e: handler e] *)
Definition try_except {S A} (body : St S A) (handler : exn -> St S A) : St S A :=
  fun s => match body s with
           | (Ok a, s1) => (Ok a, s1)
           | (Raise e, s1) => handler e s1
           end.

(** [try: body finally: cleanup]; an exception of the cleanup replaces the
    outcome of the body. *)
Definition try_finally {S A} (body : St S A) (cleanup : St S unit) : St S A :=
  fun s => match body s with
           | (r, s1) => match cleanup s1 with
                        | (Ok _, s2) => (r, s2)
                        | (Raise e, s2) => (Raise e, s2)
                        end
           end.

Definition gets {S A} (f : S -> A) : St S A := fun s => (Ok (f s), s).
Definition modify {S} (f : S -> S) : St S unit := fun s => (Ok tt, f s).

Declare Scope py_scope.
Delimit Scope py_scope with py.
Notation "'do' x <- m ; k" := (bind m (fun x => k))
  (at level 10, x name, m at level 100, k at level 200) : py_scope.
Notation "m ;; k" := (bind m (fun _ => k))
  (at level 100, k at level 200, right associativity) : py_scope.
Local Open Scope py_scope.

(** ** dto.py *)

Module dto.

Record CustomerCreateDTO := {
  document : string;
  firstname : string;
  lastname : string;
  address : string;
  phone : string;
  email : string
}.

(** Python truthiness of a [str]: [not s] holds exactly for the empty string. *)
Definition not_ (s : string) : bool :=
  match s with
  | EmptyString => true
  | String _ _ => false
  end.

(** [if not field: errors.append(msg)] *)
Definition append_if_not (field : string) (msg : string) (errors : list string)
  : list string :=
  if not_ field then errors ++ [msg] else errors.

(** [CustomerCreateDTO.validate] *)
Definition validate (self : CustomerCreateDTO) : list string :=
  let errors := [] in
  let errors := append_if_not (document self) "Document is required" errors in
  let errors := append_if_not (firstname self) "First name is required" errors in
  let errors := append_if_not (lastname self) "Last name is required" errors in
  let errors := append_if_not (address self) "Address is required" errors in
  let errors := append_if_not (phone self) "Phone is required" errors in
  let errors := append_if_not (email self) "Email is required" errors in
  errors.

(** The dataclass constructor called with the entries of [data] as keyword
    arguments (line 56 of app.py): [data] must be a JSON object whose keys are
    exactly the six fields; a missing or an unexpected key is a [TypeError].
    Values are strings, as the dataclass annotates them. *)
Definition CustomerCreateDTO_init (data : gmap string string)
  : outcome CustomerCreateDTO :=
  match data !! "document", data !! "firstname", data !! "lastname",
        data !! "address", data !! "phone", data !! "email" with
  | Some d, Some f, Some l, Some a, Some p, Some e =>
      if decide (size data = 6%nat)
      then Ok {| document := d; firstname := f; lastname := l;
                 address := a; phone := p; email := e |}
      else Raise (Exc TypeErrorC "__init__() got an unexpected keyword argument")
  | _, _, _, _, _, _ =>
      Raise (Exc TypeErrorC "__init__() missing required positional arguments")
  end.

End dto.

(** ** models.py *)

Module models.

(** A row of the [customer] table; [document] is the primary key. The
    columns [created_at] and [updated_at] are filled in by their defaults on
    the database side and play no part in the workflow. *)
Record Customer := {
  document : string;
  firstname : string;
  lastname : string;
  address : string;
  phone : string;
  email : string
}.

#[global] Instance Customer_eq_dec : EqDecision Customer.
Proof. solve_decision. Defined.

End models.

(** ** app.py: the world the service runs in *)

Inductive BreakerState := CLOSED | OPEN | HALF_OPEN.

(** The attributes of a [CircuitBreaker] object. *)
Record CircuitBreaker := {
  failure_threshold : Z;
  recovery_timeout : Z;
  failure_count : Z;
  last_failure_time : option Z;
  state : BreakerState
}.

(** [CircuitBreaker.__init__(failure_threshold=5, recovery_timeout=60)] *)
Definition CircuitBreaker_init (failure_threshold recovery_timeout : Z)
  : CircuitBreaker :=
  {| failure_threshold := failure_threshold;
     recovery_timeout := recovery_timeout;
     failure_count := 0;
     last_failure_time := None;
     state := CLOSED |}.

(** An entry of the list returned by the registry client, read by
    [instance['ipAddr']] and [instance['port']['$']]. *)
Record Instance := { ipAddr : string; port : string }.

Inductive RegistryOutcome :=
| Instances (instances : list Instance)
| RegistryRaises (e : exn).

Inductive HttpOutcome :=
| Responds (status_code : Z)
| RequestRaises (e : exn).

Inductive Level := INFO | WARNING | ERROR.

Inductive Event :=
| Log (level : Level) (msg : string) (e : exn)
| Sleep (seconds : Z)
| Post (url customerid password : string) (timeout : Z).

Record World := {
  clock : Z;                                   (* what time.time() reads *)
  eureka : nat -> string -> RegistryOutcome;   (* answer to the n-th registry query *)
  eureka_calls : nat;
  login_service : nat -> HttpOutcome;          (* answer to the n-th requests.post *)
  posts : nat;
  db_fault : nat -> option exn;                (* failure of the n-th round trip *)
  db_round_trips : nat;
  customer_table : gmap string models.Customer;
  session_new : list models.Customer;          (* objects added, not yet flushed *)
  session_failed : bool;                       (* a commit failed: rollback pending *)
  circuit_breaker : CircuitBreaker;            (* the module-level instance *)
  journal : list Event
}.

Definition M : Type -> Type := St World.

Definition set_clock (t : Z) (w : World) : World :=
  {| clock := t; eureka := eureka w; eureka_calls := eureka_calls w;
     login_service := login_service w; posts := posts w;
     db_fault := db_fault w; db_round_trips := db_round_trips w;
     customer_table := customer_table w; session_new := session_new w;
     session_failed := session_failed w;
     circuit_breaker := circuit_breaker w; journal := journal w |}.

Definition set_eureka_calls (n : nat) (w : World) : World :=
  {| clock := clock w; eureka := eureka w; eureka_calls := n;
     login_service := login_service w; posts := posts w;
     db_fault := db_fault w; db_round_trips := db_round_trips w;
     customer_table := customer_table w; session_new := session_new w;
     session_failed := session_failed w;
     circuit_breaker := circuit_breaker w; journal := journal w |}.

Definition set_posts (n : nat) (w : World) : World :=
  {| clock := clock w; eureka := eureka w; eureka_calls := eureka_calls w;
     login_service := login_service w; posts := n;
     db_fault := db_fault w; db_round_trips := db_round_trips w;
     customer_table := customer_table w; session_new := session_new w;
     session_failed := session_failed w;
     circuit_breaker := circuit_breaker w; journal := journal w |}.

Definition set_db_round_trips (n : nat) (w : World) : World :=
  {| clock := clock w; eureka := eureka w; eureka_calls := eureka_calls w;
     login_service := login_service w; posts := posts w;
     db_fault := db_fault w; db_round_trips := n;
     customer_table := customer_table w; session_new := session_new w;
     session_failed := session_failed w;
     circuit_breaker := circuit_breaker w; journal := journal w |}.

Definition set_customer_table (t : gmap string models.Customer) (w : World)
  : World :=
  {| clock := clock w; eureka := eureka w; eureka_calls := eureka_calls w;
     login_service := login_service w; posts := posts w;
     db_fault := db_fault w; db_round_trips := db_round_trips w;
     customer_table := t; session_new := session_new w;
     session_failed := session_failed w;
     circuit_breaker := circuit_breaker w; journal := journal w |}.

Definition set_session_new (l : list models.Customer) (w : World) : World :=
  {| clock := clock w; eureka := eureka w; eureka_calls := eureka_calls w;
     login_service := login_service w; posts := posts w;
     db_fault := db_fault w; db_round_trips := db_round_trips w;
     customer_table := customer_table w; session_new := l;
     session_failed := session_failed w;
     circuit_breaker := circuit_breaker w; journal := journal w |}.

Definition set_session_failed (b : bool) (w : World) : World :=
  {| clock := clock w; eureka := eureka w; eureka_calls := eureka_calls w;
     login_service := login_service w; posts := posts w;
     db_fault := db_fault w; db_round_trips := db_round_trips w;
     customer_table := customer_table w; session_new := session_new w;
     session_failed := b;
     circuit_breaker := circuit_breaker w; journal := journal w |}.

Definition set_circuit_breaker (b : CircuitBreaker) (w : World) : World :=
  {| clock := clock w; eureka := eureka w; eureka_calls := eureka_calls w;
     login_service := login_service w; posts := posts w;
     db_fault := db_fault w; db_round_trips := db_round_trips w;
     customer_table := customer_table w; session_new := session_new w;
     session_failed := session_failed w;
     circuit_breaker := b; journal := journal w |}.

Definition set_journal (j : list Event) (w : World) : World :=
  {| clock := clock w; eureka := eureka w; eureka_calls := eureka_calls w;
     login_service := login_service w; posts := posts w;
     db_fault := db_fault w; db_round_trips := db_round_trips w;
     customer_table := customer_table w; session_new := session_new w;
     session_failed := session_failed w;
     circuit_breaker := circuit_breaker w; journal := j |}.

(** *** Library calls made by app.py *)

(** [time.time()] *)
Definition time_time : M Z := gets clock.

(** [time.sleep(seconds)], as called by the retry decorator between attempts *)
Definition time_sleep (seconds : Z) : M unit :=
  modify (fun w => set_journal (journal w ++ [Sleep seconds])
                     (set_clock (clock w + seconds) w)).

(** [logger.warning(f"{msg}: {str(e)}")] and [logger.error(...)] *)
Definition logger (level : Level) (msg : string) (e : exn) : M unit :=
  modify (fun w => set_journal (journal w ++ [Log level msg e]) w).

(** [eureka_client.get_service_instances(service_name)] *)
Definition eureka_client_get_service_instances (service_name : string)
  : M (list Instance) :=
  fun w =>
    let w1 := set_eureka_calls (S (eureka_calls w)) w in
    match eureka w (eureka_calls w) service_name with
    | Instances l => (Ok l, w1)
    | RegistryRaises e => (Raise e, w1)
    end.

(** [requests.post(url, json={'customerid': .., 'password': ..}, timeout=..)];
    the value returned is the status code of the response. *)
Definition requests_post (url customerid password : string) (timeout : Z)
  : M Z :=
  fun w =>
    let w1 := set_journal (journal w ++ [Post url customerid password timeout])
                (set_posts (S (posts w)) w) in
    match login_service w (posts w) with
    | Responds status_code => (Ok status_code, w1)
    | RequestRaises e => (Raise e, w1)
    end.

(** [response.raise_for_status()]: an [HTTPError] for 4xx and 5xx. *)
Definition raise_for_status (status_code : Z) : M unit :=
  if (400 <=? status_code) && (status_code <? 600)
  then raise (Exc HTTPErrorC "HTTP error")
  else ret tt.

(** *** tenacity

    [tenacity] is a third-party package. Its decorator
    [retry(stop=stop_after_attempt(n), wait=w)] is rendered after the
    package's documented behaviour: the function is called; a result is
    returned as it is; on an exception the attempt number is compared with
    [n], and either the decorator gives up, raising [RetryError] around the
    last attempt (the source does not pass [reraise=True]), or it sleeps
    [w(attempt_number)] seconds and calls the function again. *)

(** Modelled from the spec: [wait_exponential] belongs to tenacity and is
    not part of the sources; the wait is
    [min(maxWait, multiplier * 2^(attempt-1))], floored at [minWait]. *)
Definition wait_exponential (multiplier min max : Z) (attempt_number : Z) : Z :=
  Z.max min (Z.min max (multiplier * 2 ^ (attempt_number - 1))).

(** The attempts from [attempt_number] on, when [more] further attempts are
    allowed after this one. *)
Fixpoint retrying {A} (wait : Z -> Z) (more : nat) (attempt_number : Z)
  (fn : M A) : M A :=
  try_except fn
    (fun e =>
       match more with
       | O => raise (RetryError e)
       | S more' =>
           time_sleep (wait attempt_number) ;;
           retrying wait more' (attempt_number + 1) fn
       end).

(** [stop_after_attempt(n)] stops once [attempt_number >= n]: attempt 1 is
    followed by at most [n - 1] others. *)
Definition retry {A} (stop_after_attempt : nat) (wait : Z -> Z) (fn : M A)
  : M A :=
  retrying wait (stop_after_attempt - 1) 1 fn.

(** *** app.py *)

(** [execute_with_retry], lines 45-47 *)
Definition execute_with_retry {A} (func : M A) : M A :=
  retry 3 (wait_exponential 1 2 10) func.

(** [get_service_url], lines 152-160 *)
Definition get_service_url (service_name : string) : M (option string) :=
  try_except
    (do instances <- eureka_client_get_service_instances service_name;
     match instances with
     | instance :: _ =>
         ret (Some ("http://" +:+ ipAddr instance +:+ ":" +:+ port instance))
     | [] => ret None
     end)
    (fun e =>
       logger ERROR ("Failed to get service URL for " +:+ service_name) e ;;
       ret None).

(** Truthiness of [login_service_url]: a non-empty string. *)
Definition truthy (url : option string) : bool :=
  match url with
  | Some s => negb (dto.not_ s)
  | None => false
  end.

(** The function under the decorator of line 137: lines 138-150. *)
Definition create_user_in_login_service_body (customer_id : string) : M unit :=
  try_except
    (do login_service_url <- get_service_url "LOGIN-SERVICE";
     match login_service_url with
     | Some url =>
         if truthy login_service_url then
           do status_code <- requests_post (url +:+ "/login/createuser")
                               customer_id "defaultPassword123" 5;
           raise_for_status status_code
         else ret tt
     | None => ret tt
     end)
    (fun e =>
       logger ERROR "Failed to create user in login service" e ;;
       raise e).

(** [create_user_in_login_service], lines 137-150 *)
Definition create_user_in_login_service (customer_id : string) : M unit :=
  retry 3 (wait_exponential 1 2 10)
    (create_user_in_login_service_body customer_id).

(** *** The SQLAlchemy session

    The store is a collaborator of the workflow: each statement sent to the
    database is a round trip that the world may fail; a commit flushes the
    objects added to the session into the table. A commit that fails
    leaves the session with a rolled-back transaction: the objects it held
    are expunged, and until the session is rolled back or closed every
    further statement raises [PendingRollbackError] without reaching the
    database. The source never calls [session.rollback()]. *)

Definition db_round_trip : M unit :=
  fun w =>
    let w1 := set_db_round_trips (S (db_round_trips w)) w in
    match db_fault w (db_round_trips w) with
    | Some e => (Raise e, w1)
    | None => (Ok tt, w1)
    end.

Definition PendingRollbackError : exn :=
  Exc PendingRollbackErrorC
    "This Session's transaction has been rolled back due to a previous exception during flush.".

(** A statement sent through the session. *)
Definition session_statement : M unit :=
  fun w =>
    if session_failed w then (Raise PendingRollbackError, w)
    else db_round_trip w.

(** [SessionLocal()]: a new session. *)
Definition SessionLocal : M unit :=
  modify (fun w => set_session_failed false (set_session_new [] w)).

(** [session.query(Customer).filter_by(document=document).first()] *)
Definition session_query_first (document : string)
  : M (option models.Customer) :=
  session_statement ;; gets (fun w => customer_table w !! document).

(** [session.add(customer)]: nothing happens when the object is already
    pending or persistent. *)
Definition session_add (customer : models.Customer) : M unit :=
  modify (fun w =>
    if decide (customer ∈ session_new w) then w
    else if decide (customer_table w !! models.document customer = Some customer)
    then w
    else set_session_new (session_new w ++ [customer]) w).

Fixpoint flush (new : list models.Customer)
  (table : gmap string models.Customer)
  : outcome (gmap string models.Customer) :=
  match new with
  | [] => Ok table
  | c :: rest =>
      match table !! models.document c with
      | Some _ => Raise (Exc IntegrityErrorC "duplicate key value")
      | None => flush rest (<[models.document c := c]> table)
      end
  end.

(** [session.commit()]: the flush and the COMMIT are one round trip; when
    it fails the pending objects are expunged and the session is left
    waiting for a rollback. *)
Definition session_commit : M unit :=
  fun w =>
    if session_failed w then (Raise PendingRollbackError, w)
    else
      try_except
        (db_round_trip ;;
         (fun w1 =>
            match flush (session_new w1) (customer_table w1) with
            | Ok table =>
                (Ok tt, set_session_new [] (set_customer_table table w1))
            | Raise e => (Raise e, w1)
            end))
        (fun e =>
           modify (fun w1 => set_session_failed true (set_session_new [] w1)) ;;
           raise e)
        w.

(** [session.refresh(customer)] *)
Definition session_refresh (customer : models.Customer) : M unit :=
  session_statement.

(** [session.close()] *)
Definition session_close : M unit :=
  modify (fun w => set_session_failed false (set_session_new [] w)).

(** *** The request and the response of the view *)

Inductive Method := POST | OPTIONS.

(** What [request.json] evaluates to: a JSON object, [null], or an
    exception when the body cannot be read as JSON. *)
Inductive Json :=
| JsonObject (data : gmap string string)
| JsonNull
| JsonUnreadable (e : exn).

Record Request := { method : Method; json : Json }.

Inductive JValue :=
| JBool (b : bool)
| JString (s : string)
| JStrings (l : list string)
| JStr (e : exn).                (* str(e) *)

(** [jsonify({...}), status] *)
Definition Response : Type := list (string * JValue) * Z.

Definition request_json (request : Request) : M (gmap string string) :=
  match json request with
  | JsonObject data => ret data
  | JsonNull => raise (Exc TypeErrorC "argument after ** must be a mapping, not NoneType")
  | JsonUnreadable e => raise e
  end.

Definition lift_outcome {A} (r : outcome A) : M A := fun w => (r, w).

Definition Customer_of (d : dto.CustomerCreateDTO) : models.Customer :=
  {| models.document := dto.document d;
     models.firstname := dto.firstname d;
     models.lastname := dto.lastname d;
     models.address := dto.address d;
     models.phone := dto.phone d;
     models.email := dto.email d |}.

(** The closure [save_customer], lines 77-80 *)
Definition save_customer (customer : models.Customer) : M unit :=
  session_add customer ;;
  session_commit ;;
  session_refresh customer.

(** [create_customer], lines 49-96 *)
Definition create_customer (request : Request) : M Response :=
  match method request with
  | OPTIONS => ret ([("status", JString "ok")], 200)
  | POST =>
    try_except
      (do data <- request_json request;
       do d <- lift_outcome (dto.CustomerCreateDTO_init data);
       let errors := dto.validate d in
       match errors with
       | _ :: _ => ret ([("errors", JStrings errors)], 400)
       | [] =>
         SessionLocal ;;
         try_finally
           (do existing <- session_query_first (dto.document d);
            match existing with
            | Some _ =>
                ret ([("error", JString "Customer already exists");
                      ("createCustomerValid", JBool false)], 409)
            | None =>
                let customer := Customer_of d in
                execute_with_retry (save_customer customer) ;;
                try_except
                  (create_user_in_login_service (dto.document d))
                  (fun e =>
                     logger WARNING "Could not create user in login service" e) ;;
                ret ([("createCustomerValid", JBool true)], 201)
            end)
           session_close
       end)
      (fun e =>
         logger ERROR "Error creating customer" e ;;
         ret ([("error", JStr e); ("createCustomerValid", JBool false)], 500))
  end.

(** *** class CircuitBreaker, lines 171-197

    A method runs over the object [self] and the world; [func] is a
    computation over the world alone (it holds no reference to the
    breaker). *)

Definition set_state (st : BreakerState) (self : CircuitBreaker)
  : CircuitBreaker :=
  {| failure_threshold := failure_threshold self;
     recovery_timeout := recovery_timeout self;
     failure_count := failure_count self;
     last_failure_time := last_failure_time self;
     state := st |}.

Definition set_failure_count (n : Z) (self : CircuitBreaker) : CircuitBreaker :=
  {| failure_threshold := failure_threshold self;
     recovery_timeout := recovery_timeout self;
     failure_count := n;
     last_failure_time := last_failure_time self;
     state := state self |}.

Definition set_last_failure_time (t : option Z) (self : CircuitBreaker)
  : CircuitBreaker :=
  {| failure_threshold := failure_threshold self;
     recovery_timeout := recovery_timeout self;
     failure_count := failure_count self;
     last_failure_time := t;
     state := state self |}.

Definition Method_ : Type -> Type := St (CircuitBreaker * World).

Definition self_ {A} (attr : CircuitBreaker -> A) : Method_ A :=
  gets (fun s => attr (fst s)).

Definition assign (update : CircuitBreaker -> CircuitBreaker) : Method_ unit :=
  modify (fun s => (update (fst s), snd s)).

Definition in_world {A} (m : M A) : Method_ A :=
  fun s => match m (snd s) with
           | (r, w) => (r, (fst s, w))
           end.

(** The rejection of line 184. *)
Definition CircuitOpenError : exn := Exc ExceptionC "Circuit breaker is OPEN".

(** [CircuitBreaker.call], lines 179-197 *)
Definition call {A} (func : M A) : Method_ A :=
  (do st <- self_ state;
   match st with
   | OPEN =>
       do now <- in_world time_time;
       do last <- self_ last_failure_time;
       do timeout <- self_ recovery_timeout;
       match last with
       | None =>
           raise (Exc TypeErrorC
                    "unsupported operand type(s) for -: 'float' and 'NoneType'")
       | Some t =>
           if timeout <? now - t
           then assign (set_state HALF_OPEN)
           else raise CircuitOpenError
       end
   | _ => ret tt
   end) ;;
  try_except
    (do result <- in_world func;
     do st <- self_ state;
     match st with
     | HALF_OPEN =>
         assign (set_state CLOSED) ;;
         assign (set_failure_count 0)
     | _ => ret tt
     end ;;
     ret result)
    (fun e =>
       assign (fun self => set_failure_count (failure_count self + 1) self) ;;
       do now <- in_world time_time;
       assign (set_last_failure_time (Some now)) ;;
       do count <- self_ failure_count;
       do threshold <- self_ failure_threshold;
       (if threshold <=? count then assign (set_state OPEN) else ret tt) ;;
       raise e).

(** [circuit_breaker = CircuitBreaker()], line 199 *)
Definition circuit_breaker_0 : CircuitBreaker := CircuitBreaker_init 5 60.

(** The breaker states that calls can produce from a fresh object. *)
Inductive reachable (threshold timeout : Z) : CircuitBreaker -> Prop :=
| reachable_init : reachable threshold timeout (CircuitBreaker_init threshold timeout)
| reachable_call : forall A (func : M A) self w r self' w',
    reachable threshold timeout self ->
    call func (self, w) = (r, (self', w')) ->
    reachable threshold timeout self'.

(** ** Definitions used in the statements *)

(** What the [except] branch of [call] leaves in the object when the
    failure is observed at time [now]. *)
Definition record_failure (now : Z) (self : CircuitBreaker) : CircuitBreaker :=
  let self1 := set_last_failure_time (Some now)
                 (set_failure_count (failure_count self + 1) self) in
  if failure_threshold self1 <=? failure_count self1
  then set_state OPEN self1
  else self1.

(** [n] calls in a row, each of which raises, take the object from [self]
    to [self']; the world each call starts in is arbitrary. *)
Inductive failing_calls {A : Type}
  : nat -> CircuitBreaker -> CircuitBreaker -> Prop :=
| failing_calls_0 : forall self, failing_calls 0 self self
| failing_calls_S : forall n self self1 self' (func : M A) w e w',
    call func (self, w) = (Raise e, (self1, w')) ->
    failing_calls n self1 self' ->
    failing_calls (S n) self self'.

(** The invariant kept by [call] on an object built with the given
    configuration. *)
Definition breaker_inv (threshold timeout : Z) (self : CircuitBreaker) : Prop :=
  failure_threshold self = threshold /\
  recovery_timeout self = timeout /\
  0 <= failure_count self /\
  state self <> HALF_OPEN /\
  (state self = OPEN ->
   threshold <= failure_count self /\ 1 <= failure_count self /\
   is_Some (last_failure_time self)).

(** A transient database error. *)
Definition boom : exn := Exc SQLAlchemyErrorC "connection reset".

(** A world in which nothing has happened yet: the registry lists no
    instance, the login service refuses connections, the database answers. *)
Definition quiet_world : World :=
  {| clock := 0;
     eureka := fun _ _ => Instances [];
     eureka_calls := 0;
     login_service := fun _ => RequestRaises (Exc RequestExceptionC "connection refused");
     posts := 0;
     db_fault := fun _ => None;
     db_round_trips := 0;
     customer_table := ∅;
     session_new := [];
     session_failed := false;
     circuit_breaker := circuit_breaker_0;
     journal := [] |}.

(** The [wait=] argument of the two decorators, lines 45 and 137. *)
Definition backoff : Z -> Z := wait_exponential 1 2 10.

(** Journal entries that are log lines. *)
Definition is_Log (ev : Event) : Prop :=
  match ev with
  | Log _ _ _ => True
  | _ => False
  end.

(** What a world may differ in after a registry lookup alone: the count of
    registry queries and log lines. *)
Definition only_looked_up (w w1 : World) : Prop :=
  clock w1 = clock w /\ posts w1 = posts w /\
  db_round_trips w1 = db_round_trips w /\
  customer_table w1 = customer_table w /\
  circuit_breaker w1 = circuit_breaker w /\
  eureka_calls w1 = S (eureka_calls w) /\
  exists logs, journal w1 = journal w ++ logs /\ Forall is_Log logs.

(** A computation that neither reads nor writes the module-level breaker. *)
Definition ignores_breaker {A} (m : M A) : Prop :=
  forall b w,
    m (set_circuit_breaker b w) = (fst (m w), set_circuit_breaker b (snd (m w))).

(** The breaker after five failures recorded at time 0. *)
Definition tripped_breaker : CircuitBreaker :=
  {| failure_threshold := 5; recovery_timeout := 60; failure_count := 5;
     last_failure_time := Some 0; state := OPEN |}.

(** A world at time 10 in which the registry lists one instance of the login
    service, the login service refuses connections, and the module-level
    breaker is OPEN. *)
Definition refusing_world : World :=
  {| clock := 10;
     eureka := fun _ _ => Instances [{| ipAddr := "10.0.0.7"; port := "8081" |}];
     eureka_calls := 0;
     login_service := fun _ => RequestRaises (Exc RequestExceptionC "connection refused");
     posts := 0;
     db_fault := fun _ => None;
     db_round_trips := 0;
     customer_table := ∅;
     session_new := [];
     session_failed := false;
     circuit_breaker := tripped_breaker;
     journal := [] |}.

(** The required fields, in the order [validate] checks them, each with its
    message. *)
Definition required : list ((dto.CustomerCreateDTO -> string) * string) :=
  [ (dto.document, "Document is required");
    (dto.firstname, "First name is required");
    (dto.lastname, "Last name is required");
    (dto.address, "Address is required");
    (dto.phone, "Phone is required");
    (dto.email, "Email is required") ].

(** The required fields that are empty in [d]. *)
Definition missing (d : dto.CustomerCreateDTO)
  : list ((dto.CustomerCreateDTO -> string) * string) :=
  List.filter (fun fm => dto.not_ (fst fm d)) required.

(** The JSON object with the six fields. *)
Definition body_of (d f l a p e : string) : gmap string string :=
  <["document" := d]> (<["firstname" := f]> (<["lastname" := l]>
  (<["address" := a]> (<["phone" := p]> (<["email" := e]> ∅))))).

(** Scenario 1 of the spec. *)
Definition ana : Request :=
  {| method := POST;
     json := JsonObject (body_of "123" "Ana" "Li" "x" "555" "a@b.c") |}.

(** Scenario 3 of the spec: an empty first name. *)
Definition nameless : Request :=
  {| method := POST;
     json := JsonObject (body_of "123" "" "Li" "x" "555" "a@b.c") |}.

(** The world after the provisioning step of [create_customer]. *)
Definition after_provisioning (customer_id : string) (w : World) : World :=
  match create_user_in_login_service customer_id w with
  | (Ok _, w1) => w1
  | (Raise e, w1) =>
      snd (logger WARNING "Could not create user in login service" e w1)
  end.

(** The DTO built from the body of [ana], and the worlds its registration
    goes through from [refusing_world]: after the uniqueness check and after
    the write. *)
Definition ana_dto : dto.CustomerCreateDTO :=
  {| dto.document := "123"; dto.firstname := "Ana"; dto.lastname := "Li";
     dto.address := "x"; dto.phone := "555"; dto.email := "a@b.c" |}.

Definition ana_checked : World :=
  snd (session_query_first "123" (snd (SessionLocal refusing_world))).

Definition ana_saved : World :=
  snd (execute_with_retry (save_customer (Customer_of ana_dto)) ana_checked).

(** An operation whose invocations are counted by [posts]. *)
Definition post_once : M Z :=
  requests_post "http://10.0.0.7:8081/login/createuser" "123"
    "defaultPassword123" 5.

(** [n] calls of [func] through the breaker, one after the other. *)
Fixpoint calls {A} (n : nat) (func : M A) (s : CircuitBreaker * World)
  : CircuitBreaker * World :=
  match n with
  | O => s
  | S n' => calls n' func (snd (call func s))
  end.

(** The world of [quiet_world] at a later time. *)
Definition later : World := set_clock 100 quiet_world.

(** ** The lookup view, the health view and the response DTO *)

(** [class CustomerResponseDTO] of dto.py, lines 38-55 *)
Module CustomerResponseDTO.

Record t := {
  document : string;
  firstname : string;
  lastname : string;
  address : string;
  phone : string;
  email : string
}.

(** [to_dict]: the dictionary, in insertion order. *)
Definition to_dict (self : t) : list (string * string) :=
  [ ("document", document self);
    ("firstname", firstname self);
    ("lastname", lastname self);
    ("address", address self);
    ("phone", phone self);
    ("email", email self) ].

End CustomerResponseDTO.

(** The request of the lookup route: its method and its query string;
    [request.args.get(key)] is the lookup of [key]. *)
Module lookup.

Inductive Method := GET | OPTIONS.

Record Request := { method : Method; args : gmap string string }.

End lookup.

(** The constructor call of lines 119-126. *)
Definition response_of (customer : models.Customer) : CustomerResponseDTO.t :=
  {| CustomerResponseDTO.document := models.document customer;
     CustomerResponseDTO.firstname := models.firstname customer;
     CustomerResponseDTO.lastname := models.lastname customer;
     CustomerResponseDTO.address := models.address customer;
     CustomerResponseDTO.phone := models.phone customer;
     CustomerResponseDTO.email := models.email customer |}.

(** [jsonify] of a dictionary of strings *)
Definition jsonify (d : list (string * string)) : list (string * JValue) :=
  List.map (fun kv => (fst kv, JString (snd kv))) d.

(** The closure [find_customer], lines 111-112 *)
Definition find_customer (customer_id : string) : M (option models.Customer) :=
  session_query_first customer_id.

(** [find_customer_by_id], lines 98-135 *)
Definition find_customer_by_id (request : lookup.Request) : M Response :=
  match lookup.method request with
  | lookup.OPTIONS => ret ([("status", JString "ok")], 200)
  | lookup.GET =>
    try_except
      (let customer_id := lookup.args request !! "customerid" in
       match customer_id with
       | None => ret ([("error", JString "customerid parameter is required")], 400)
       | Some id =>
         if dto.not_ id
         then ret ([("error", JString "customerid parameter is required")], 400)
         else
           SessionLocal ;;
           try_finally
             (do customer <- execute_with_retry (find_customer id);
              match customer with
              | None => ret ([("error", JString "Customer not found")], 404)
              | Some customer =>
                  let response := response_of customer in
                  ret (jsonify (CustomerResponseDTO.to_dict response), 200)
              end)
             session_close
       end)
      (fun e =>
         logger ERROR "Error finding customer" e ;;
         ret ([("error", JStr e)], 500))
  end.

(** [db_health], lines 35-43: [engine.connect()] and the [SELECT 1] are one
    round trip each. *)
Definition db_health : M Response :=
  try_except
    (db_round_trip ;;
     db_round_trip ;;
     ret ([("status", JString "UP")], 200))
    (fun e =>
       logger ERROR "Database health check failed" e ;;
       ret ([("status", JString "DOWN"); ("error", JStr e)], 503)).

(** *** Notions used in the further properties *)

(** Whether an outcome is a normal return. *)
Definition returned {A} (r : outcome A) : bool :=
  match r with
  | Ok _ => true
  | Raise _ => false
  end.

(** A series of calls on one breaker, with arbitrary operations and worlds,
    recorded by whether each call returned ([true]) or raised ([false]). *)
Inductive calls_trace {A : Type}
  : CircuitBreaker -> list bool -> CircuitBreaker -> Prop :=
| calls_trace_nil : forall self, calls_trace self [] self
| calls_trace_cons : forall self (func : M A) w r self1 w' trace self',
    call func (self, w) = (r, (self1, w')) ->
    calls_trace self1 trace self' ->
    calls_trace self (returned r :: trace) self'.

(** The number of raising calls in a trace. *)
Definition failures (trace : list bool) : Z :=
  Z.of_nat (length (List.filter negb trace)).

(** What one provisioning call may change: at most [k] registry queries
    and [k] posts more, the clock advanced by at most [s], and nothing of
    the database, the session or the breaker. *)
Definition within (k : nat) (s : Z) (w w' : World) : Prop :=
  (posts w <= posts w' <= posts w + k)%nat /\
  (eureka_calls w <= eureka_calls w' <= eureka_calls w + k)%nat /\
  clock w <= clock w' <= clock w + s /\
  customer_table w' = customer_table w /\
  session_new w' = session_new w /\
  db_round_trips w' = db_round_trips w /\
  circuit_breaker w' = circuit_breaker w.

(** A computation that leaves the observation [f] of the world as it was. *)
Definition preserves {X A} (f : World -> X) (m : M A) : Prop :=
  forall w, f (snd (m w)) = f w.

(** A computation that never raises. *)
Definition never_raises {A} (m : M A) : Prop :=
  forall w, exists a, fst (m w) = Ok a.

(** A computation whose normal results all satisfy [P]. *)
Definition returns {A} (P : A -> Prop) (m : M A) : Prop :=
  forall w a, fst (m w) = Ok a -> P a.

(** What the session holds and the table shows for [c] while it is being
    saved: a commit has failed, or [c] is pending and absent, or flushed and
    present. *)
Definition saving (c : models.Customer) (w : World) : Prop :=
  session_failed w = true \/
  (session_failed w = false /\
   ((session_new w = [c] /\ customer_table w !! models.document c = None) \/
    (session_new w = [] /\ customer_table w !! models.document c = None) \/
    (session_new w = [] /\ customer_table w !! models.document c = Some c))).

(** *** Worlds, requests and notions of the further properties *)

(** A world whose database fails the first round trip and answers the
    later ones. *)
Definition flaky_world : World :=
  {| clock := 0;
     eureka := fun _ _ => Instances [];
     eureka_calls := 0;
     login_service := fun _ => Responds 200;
     posts := 0;
     db_fault := fun n => if Nat.eqb n 0 then Some boom else None;
     db_round_trips := 0;
     customer_table := ∅;
     session_new := [];
     session_failed := false;
     circuit_breaker := circuit_breaker_0;
     journal := [] |}.

(** The world after the post of one attempt against instance [i]. *)
Definition posted (i : Instance) (customer_id : string) (w : World) : World :=
  set_journal
    (journal w ++
     [Post (("http://" +:+ ipAddr i +:+ ":" +:+ port i) +:+ "/login/createuser")
        customer_id "defaultPassword123" 5])
    (set_posts (S (posts w)) (set_eureka_calls (S (eureka_calls w)) w)).

(** The world after the error log of a failed attempt. *)
Definition attempt_failed (e : exn) (w : World) : World :=
  snd (logger ERROR "Failed to create user in login service" e w).

(** A world in which the login service is listed and answers 200. *)
Definition healthy_world : World :=
  {| clock := 0;
     eureka := fun _ _ => Instances [{| ipAddr := "10.0.0.7"; port := "8081" |}];
     eureka_calls := 0;
     login_service := fun _ => Responds 200;
     posts := 0;
     db_fault := fun _ => None;
     db_round_trips := 0;
     customer_table := ∅;
     session_new := [];
     session_failed := false;
     circuit_breaker := circuit_breaker_0;
     journal := [] |}.

(** A world in which the login service is listed and answers 503. *)
Definition erroring_world : World :=
  {| clock := 0;
     eureka := fun _ _ => Instances [{| ipAddr := "10.0.0.7"; port := "8081" |}];
     eureka_calls := 0;
     login_service := fun _ => Responds 503;
     posts := 0;
     db_fault := fun _ => None;
     db_round_trips := 0;
     customer_table := ∅;
     session_new := [];
     session_failed := false;
     circuit_breaker := circuit_breaker_0;
     journal := [] |}.

(** The answer of the outer [except] of [create_customer], lines 94-96. *)
Definition failed (e : exn) (w : World) : outcome Response * World :=
  (Ok ([("error", JStr e); ("createCustomerValid", JBool false)], 500),
   snd (logger ERROR "Error creating customer" e w)).

(** What the downstream side of the world shows: the posts made, the
    registry queries made and the breaker. *)
Definition downstream (w : World) : nat * nat * CircuitBreaker :=
  (posts w, eureka_calls w, circuit_breaker w).

(** The six keyword arguments of the constructor. *)
Definition fields : list string :=
  ["document"; "firstname"; "lastname"; "address"; "phone"; "email"].

(** A world whose database answers the first round trip and fails all the
    later ones. *)
Definition failing_store_world : World :=
  {| clock := 0;
     eureka := fun _ _ => Instances [{| ipAddr := "10.0.0.7"; port := "8081" |}];
     eureka_calls := 0;
     login_service := fun _ => Responds 200;
     posts := 0;
     db_fault := fun n => if Nat.eqb n 0 then None else Some boom;
     db_round_trips := 0;
     customer_table := ∅;
     session_new := [];
     session_failed := false;
     circuit_breaker := circuit_breaker_0;
     journal := [] |}.

(** A world whose database fails the second round trip only. *)
Definition blip_world : World :=
  {| clock := 0;
     eureka := fun _ _ => Instances [{| ipAddr := "10.0.0.7"; port := "8081" |}];
     eureka_calls := 0;
     login_service := fun _ => Responds 200;
     posts := 0;
     db_fault := fun n => if Nat.eqb n 1 then Some boom else None;
     db_round_trips := 0;
     customer_table := ∅;
     session_new := [];
     session_failed := false;
     circuit_breaker := circuit_breaker_0;
     journal := [] |}.

(** The world the registration of [ana] leaves from [quiet_world]. *)
Definition ana_registered : World := snd (create_customer ana quiet_world).

(** A POST with the body [null]. *)
Definition null_post : Request := {| method := POST; json := JsonNull |}.

(** The answer of the outer [except] of [find_customer_by_id], lines
    133-135. *)
Definition lookup_failed (e : exn) (w : World) : outcome Response * World :=
  (Ok ([("error", JStr e)], 500),
   snd (logger ERROR "Error finding customer" e w)).

(** The stored side and the downstream side of the world together. *)
Definition stored_and_downstream (w : World)
  : gmap string models.Customer * (nat * nat * CircuitBreaker) :=
  (customer_table w, downstream w).

(** The lookup of document 123. *)
Definition find_123 : lookup.Request :=
  {| lookup.method := lookup.GET; lookup.args := {[ "customerid" := "123" ]} |}.

(** A lookup without parameters. *)
Definition find_nothing : lookup.Request :=
  {| lookup.method := lookup.GET; lookup.args := ∅ |}.

(** * Properties *)

(** ** The circuit breaker, case by case *)

Section CallCases.
Context {A : Type} (func : M A) (self : CircuitBreaker) (w : World).

Lemma call_not_open :
  state self <> OPEN ->
  call func (self, w) =
    match func w with
    | (Ok a, w1) =>
        (Ok a,
         (match state self with
          | HALF_OPEN => set_failure_count 0 (set_state CLOSED self)
          | _ => self
          end, w1))
    | (Raise e, w1) => (Raise e, (record_failure (clock w1) self, w1))
    end.
Proof.
  intros Hst. unfold call, bind, try_except, in_world, self_, gets, assign,
    modify, ret, raise, time_time, record_failure. cbn.
  destruct (state self) eqn:Es; try congruence; cbn;
    destruct (func w) as [[a|e] w1]; cbn; rewrite ?Es; cbn; try reflexivity;
    destruct (failure_threshold self <=? failure_count self + 1); reflexivity.
Qed.

Lemma call_open_rejected t :
  state self = OPEN ->
  last_failure_time self = Some t ->
  clock w - t <= recovery_timeout self ->
  call func (self, w) = (Raise CircuitOpenError, (self, w)).
Proof.
  intros Es El Ht. unfold call, bind, try_except, in_world, self_, gets,
    assign, modify, ret, raise, time_time. cbn. rewrite Es. cbn. rewrite El.
  destruct (recovery_timeout self <? clock w - t) eqn:E; [lia | reflexivity].
Qed.

Lemma call_open_trial t :
  state self = OPEN ->
  last_failure_time self = Some t ->
  recovery_timeout self < clock w - t ->
  call func (self, w) =
    match func w with
    | (Ok a, w1) => (Ok a, (set_failure_count 0 (set_state CLOSED self), w1))
    | (Raise e, w1) =>
        (Raise e, (record_failure (clock w1) (set_state HALF_OPEN self), w1))
    end.
Proof.
  intros Es El Ht. unfold call, bind, try_except, in_world, self_, gets,
    assign, modify, ret, raise, time_time, record_failure. cbn.
  rewrite Es. cbn. rewrite El.
  destruct (recovery_timeout self <? clock w - t) eqn:E; [| lia]. cbn.
  destruct (func w) as [[a|e] w1]; cbn; try reflexivity.
  destruct (failure_threshold self <=? failure_count self + 1); reflexivity.
Qed.

Lemma call_open_unset :
  state self = OPEN ->
  last_failure_time self = None ->
  exists e, call func (self, w) = (Raise e, (self, w)).
Proof.
  intros Es El. eexists. unfold call, bind, try_except, in_world, self_,
    gets, assign, modify, ret, raise, time_time. cbn. rewrite Es. cbn.
  rewrite El. reflexivity.
Qed.
End CallCases.

(** ** Invariants of the breaker *)

Lemma breaker_inv_init threshold timeout :
  breaker_inv threshold timeout (CircuitBreaker_init threshold timeout).
Proof. unfold breaker_inv; cbn. repeat split; try lia; congruence. Qed.

Lemma record_failure_inv threshold timeout now self :
  failure_threshold self = threshold ->
  recovery_timeout self = timeout ->
  0 <= failure_count self ->
  state self <> OPEN ->
  (state self = HALF_OPEN -> threshold <= failure_count self) ->
  breaker_inv threshold timeout (record_failure now self).
Proof.
  intros Hth Hto Hc Hno Hh. unfold record_failure, breaker_inv. cbn.
  destruct (failure_threshold self <=? failure_count self + 1) eqn:E; cbn.
  - apply Z.leb_le in E. repeat split; try lia; try congruence. eauto.
  - apply Z.leb_gt in E. repeat split; try lia; try congruence.
    intros Hs. apply Hh in Hs. lia.
Qed.

Lemma call_preserves_inv threshold timeout A (func : M A) self w r self' w' :
  breaker_inv threshold timeout self ->
  call func (self, w) = (r, (self', w')) ->
  breaker_inv threshold timeout self'.
Proof.
  intros (Hth & Hto & Hc & Hh & Ho) Hcall.
  destruct (state self) eqn:Es; try congruence.
  - rewrite call_not_open in Hcall by congruence. rewrite Es in Hcall.
    destruct (func w) as [[a|e] w1]; inversion Hcall; subst.
    + unfold breaker_inv. rewrite Es. repeat split; auto; congruence.
    + apply record_failure_inv; auto; congruence.
  - destruct (Ho eq_refl) as (Ht & H1 & [t Hl]).
    destruct (Z_lt_le_dec (recovery_timeout self) (clock w - t)) as [Hlt|Hle].
    + rewrite (call_open_trial func self w t Es Hl Hlt) in Hcall.
      destruct (func w) as [[a|e] w1]; inversion Hcall; subst.
      * unfold breaker_inv; cbn. repeat split; auto; try lia; congruence.
      * apply record_failure_inv; cbn; auto; congruence.
    + rewrite (call_open_rejected func self w t Es Hl Hle) in Hcall.
      inversion Hcall; subst. unfold breaker_inv. rewrite Es.
      repeat split; auto; try congruence; eauto.
Qed.

Lemma reachable_inv threshold timeout self :
  reachable threshold timeout self -> breaker_inv threshold timeout self.
Proof.
  induction 1 as [|A func self w r self' w' _ IH Hcall].
  - apply breaker_inv_init.
  - eapply call_preserves_inv; eauto.
Qed.

Lemma closed_failing_call A (func : M A) self w e self1 w' :
  state self = CLOSED ->
  call func (self, w) = (Raise e, (self1, w')) ->
  self1 = record_failure (clock w') self.
Proof.
  intros Es Hcall. rewrite call_not_open in Hcall by congruence.
  destruct (func w) as [[a|e0] w1]; inversion Hcall; subst; reflexivity.
Qed.

(** ** C5: the sixth call is rejected *)

(** C5. With [failure_threshold = 5], five calls in a row that fail, made on
    a fresh breaker, leave it OPEN with a last failure time [t]; a sixth call
    made while [now - t <= recovery_timeout] raises the rejection of line
    184 (the spec's CircuitOpenError) and returns the object and the world
    as they were: the operation handed to it, whatever it is, is not run. *)
Theorem sixth_call_rejected :
  forall (A : Type) (timeout : Z) (self5 : CircuitBreaker),
    @failing_calls A 5 (CircuitBreaker_init 5 timeout) self5 ->
    state self5 = OPEN /\ failure_count self5 = 5 /\
    exists t, last_failure_time self5 = Some t /\
      forall (B : Type) (func : M B) (w : World),
        clock w - t <= recovery_timeout self5 ->
        call func (self5, w) = (Raise CircuitOpenError, (self5, w)).
Proof.
  intros A timeout self5 H.
  inversion H as [|n0 s0 s1 s0' f1 w1 e1 w1' C1 H1]; subst; clear H.
  apply closed_failing_call in C1; [|reflexivity]. subst s1.
  inversion H1 as [|n0 s0 s2 s0' f2 w2 e2 w2' C2 H2]; subst; clear H1.
  apply closed_failing_call in C2; [|reflexivity]. subst s2.
  inversion H2 as [|n0 s0 s3 s0' f3 w3 e3 w3' C3 H3]; subst; clear H2.
  apply closed_failing_call in C3; [|reflexivity]. subst s3.
  inversion H3 as [|n0 s0 s4 s0' f4 w4 e4 w4' C4 H4]; subst; clear H3.
  apply closed_failing_call in C4; [|reflexivity]. subst s4.
  inversion H4 as [|n0 s0 s5 s0' f5 w5 e5 w5' C5 H5]; subst; clear H4.
  apply closed_failing_call in C5; [|reflexivity]. subst s5.
  inversion H5; subst; clear H5.
  split; [reflexivity|]. split; [reflexivity|].
  exists (clock w5'). split; [reflexivity|].
  intros B func w Hw. eapply call_open_rejected; [reflexivity|reflexivity|exact Hw].
Qed.

(** ** C6: the half-open trial *)

(** C6. On a breaker that calls have left OPEN, a call made when more than
    [recovery_timeout] has passed since [last_failure_time] runs the
    operation once. If it returns, the breaker is CLOSED with
    [failure_count = 0]; if it raises, the breaker is OPEN again, whatever
    the threshold, with the time of this failure recorded, and any call made
    within [recovery_timeout] of it is rejected without running its
    operation. *)
Theorem half_open_trial :
  forall (threshold timeout : Z) (self : CircuitBreaker) (t : Z)
         (A : Type) (func : M A) (w : World),
    reachable threshold timeout self ->
    state self = OPEN ->
    last_failure_time self = Some t ->
    recovery_timeout self < clock w - t ->
    exists self',
      call func (self, w) = (fst (func w), (self', snd (func w))) /\
      match fst (func w) with
      | Ok _ => state self' = CLOSED /\ failure_count self' = 0
      | Raise _ =>
          state self' = OPEN /\
          last_failure_time self' = Some (clock (snd (func w))) /\
          forall (B : Type) (g : M B) (w2 : World),
            clock w2 - clock (snd (func w)) <= recovery_timeout self' ->
            call g (self', w2) = (Raise CircuitOpenError, (self', w2))
      end.
Proof.
  intros threshold timeout self t A func w Hr Es El Ht.
  apply reachable_inv in Hr. destruct Hr as (Hth & Hto & Hc & Hh & Ho).
  destruct (Ho Es) as (Hge & _ & _).
  rewrite (call_open_trial func self w t Es El Ht).
  destruct (func w) as [[a|e] w1]; cbn.
  - eexists. split; [reflexivity|]. cbn. auto.
  - assert (Hrec : record_failure (clock w1) (set_state HALF_OPEN self) =
                   set_state OPEN (set_last_failure_time (Some (clock w1))
                     (set_failure_count (failure_count self + 1) self))).
    { unfold record_failure. cbn.
      destruct (failure_threshold self <=? failure_count self + 1) eqn:E;
        [reflexivity | apply Z.leb_gt in E; lia]. }
    rewrite Hrec. eexists. split; [reflexivity|]. cbn.
    split; [reflexivity|]. split; [reflexivity|].
    intros B g w2 Hw. eapply call_open_rejected; cbn; eauto.
Qed.

(** ** C8: the two invariants *)

(** C8. On every breaker that calls have produced from a fresh one: when the
    state is OPEN, [last_failure_time] is set; and a call puts
    [failure_count] back to 0 exactly when it takes the breaker into
    CLOSED from another state, while every other call leaves the count
    where it was or higher. *)
Theorem breaker_invariants :
  forall (threshold timeout : Z) (self : CircuitBreaker),
    reachable threshold timeout self ->
    (state self = OPEN -> is_Some (last_failure_time self)) /\
    forall (A : Type) (func : M A) (w : World) r self' w',
      call func (self, w) = (r, (self', w')) ->
      ((state self <> CLOSED /\ state self' = CLOSED) <->
       (failure_count self <> 0 /\ failure_count self' = 0)) /\
      (~ (state self <> CLOSED /\ state self' = CLOSED) ->
       failure_count self <= failure_count self').
Proof.
  intros threshold timeout self Hr.
  apply reachable_inv in Hr. destruct Hr as (Hth & Hto & Hc & Hh & Ho).
  split; [intros Es; apply Ho, Es|].
  intros A func w r self' w' Hcall.
  destruct (state self) eqn:Es; try congruence.
  - rewrite call_not_open in Hcall by congruence. rewrite Es in Hcall.
    destruct (func w) as [[a|e] w1]; inversion Hcall; subst.
    + rewrite Es. split; [|intros _; lia].
      split; intros []; [congruence|lia].
    + assert (Hinc : failure_count (record_failure (clock w') self) =
                     failure_count self + 1).
      { unfold record_failure; cbn.
        destruct (failure_threshold self <=? failure_count self + 1); reflexivity. }
      rewrite Hinc. split; [|intros _; lia].
      split; intros []; [congruence|lia].
  - destruct (Ho eq_refl) as (Ht & H1 & [t Hl]).
    destruct (Z_lt_le_dec (recovery_timeout self) (clock w - t)) as [Hlt|Hle].
    + rewrite (call_open_trial func self w t Es Hl Hlt) in Hcall.
      destruct (func w) as [[a|e] w1]; inversion Hcall; subst; cbn.
      * split.
        -- split; intros _; split; try reflexivity; try congruence; lia.
        -- intros Hn. exfalso. apply Hn. split; [congruence|reflexivity].
      * assert (Hinc : failure_count (record_failure (clock w')
                         (set_state HALF_OPEN self)) = failure_count self + 1).
        { unfold record_failure; cbn.
          destruct (failure_threshold self <=? failure_count self + 1); reflexivity. }
        assert (Hst : state (record_failure (clock w')
                         (set_state HALF_OPEN self)) = OPEN).
        { unfold record_failure; cbn.
          destruct (failure_threshold self <=? failure_count self + 1) eqn:E;
            [reflexivity | apply Z.leb_gt in E; lia]. }
        rewrite Hinc, Hst. split; [|intros _; lia].
        split; intros []; [congruence|lia].
    + rewrite (call_open_rejected func self w t Es Hl Hle) in Hcall.
      inversion Hcall; subst. rewrite Es. split; [|intros _; lia].
      split; intros []; [congruence|lia].
Qed.

(** ** The retry decorator *)

Lemma time_sleep_ok s w : time_sleep s w = (Ok tt, snd (time_sleep s w)).
Proof. reflexivity. Qed.

Lemma retry_three_failures A (wait : Z -> Z) (func : M A) w e1 w1 e2 w2 e3 w3 :
  func w = (Raise e1, w1) ->
  func (snd (time_sleep (wait 1) w1)) = (Raise e2, w2) ->
  func (snd (time_sleep (wait 2) w2)) = (Raise e3, w3) ->
  retry 3 wait func w = (Raise (RetryError e3), w3).
Proof.
  intros H1 H2 H3. unfold retry. cbn [Nat.sub retrying].
  unfold try_except at 1. rewrite H1. unfold bind at 1.
  destruct (time_sleep (wait 1) w1) as [[[]|e] w1'] eqn:Es1;
    [|unfold time_sleep, modify in Es1; discriminate].
  cbn [snd] in H2. unfold try_except at 1. rewrite H2. unfold bind at 1.
  replace (1 + 1) with 2 by reflexivity.
  destruct (time_sleep (wait 2) w2) as [[[]|e] w2'] eqn:Es2;
    [|unfold time_sleep, modify in Es2; discriminate].
  cbn [snd] in H3. unfold try_except. rewrite H3. reflexivity.
Qed.

Lemma retry_first_success A (wait : Z -> Z) n (func : M A) w a w1 :
  func w = (Ok a, w1) ->
  retry n wait func w = (Ok a, w1).
Proof.
  intros H. unfold retry. destruct (n - 1)%nat; cbn [retrying];
    unfold try_except; rewrite H; reflexivity.
Qed.

(** ** C4: what the retry decorator raises when it gives up *)

(** C4, as stated, fails: an operation that raises [boom] on each of its
    three attempts makes [execute_with_retry] raise [RetryError] around
    [boom], not [boom] itself. *)
Lemma retry_does_not_reraise_last_error :
  (forall w, @raise World unit boom w = (Raise boom, w)) /\
  fst (execute_with_retry (@raise World unit boom) quiet_world)
    = Raise (RetryError boom) /\
  fst (execute_with_retry (@raise World unit boom) quiet_world) <> Raise boom.
Proof.
  split; [reflexivity|]. split; [reflexivity|]. cbn. discriminate.
Qed.

(** C4, amended. When the operation raises on the first attempt and on the
    two attempts that follow the waits, [execute_with_retry] and the
    decorated [create_user_in_login_service] stop after these three
    attempts and raise tenacity's [RetryError] holding the error of the
    third attempt; the world is the one the third attempt left. *)
Theorem retry_gives_up_with_RetryError :
  (forall (A : Type) (func : M A) w e1 w1 e2 w2 e3 w3,
     func w = (Raise e1, w1) ->
     func (snd (time_sleep (wait_exponential 1 2 10 1) w1)) = (Raise e2, w2) ->
     func (snd (time_sleep (wait_exponential 1 2 10 2) w2)) = (Raise e3, w3) ->
     execute_with_retry func w = (Raise (RetryError e3), w3)) /\
  (forall customer_id w e1 w1 e2 w2 e3 w3,
     create_user_in_login_service_body customer_id w = (Raise e1, w1) ->
     create_user_in_login_service_body customer_id
       (snd (time_sleep (wait_exponential 1 2 10 1) w1)) = (Raise e2, w2) ->
     create_user_in_login_service_body customer_id
       (snd (time_sleep (wait_exponential 1 2 10 2) w2)) = (Raise e3, w3) ->
     create_user_in_login_service customer_id w = (Raise (RetryError e3), w3)).
Proof.
  split; intros; eapply retry_three_failures; eassumption.
Qed.

Lemma retry_gives_up_with_RetryError_witness :
  execute_with_retry (@raise World unit boom) quiet_world =
    (Raise (RetryError boom),
     snd (time_sleep 2 (snd (time_sleep 2 quiet_world)))).
Proof.
  apply (proj1 retry_gives_up_with_RetryError unit (raise boom) quiet_world
           boom quiet_world
           boom (snd (time_sleep 2 quiet_world))
           boom (snd (time_sleep 2 (snd (time_sleep 2 quiet_world)))));
    reflexivity.
Defined.

(** ** C7: the backoff policy *)




(** The waits slept by one exhausted retry sequence are those of attempts 1
    and 2. *)
Lemma retry_sequence_waits A (func : M A) w e1 w1 e2 w2 e3 w3 :
  func w = (Raise e1, w1) ->
  func (snd (time_sleep (backoff 1) w1)) = (Raise e2, w2) ->
  func (snd (time_sleep (backoff 2) w2)) = (Raise e3, w3) ->
  execute_with_retry func w = (Raise (RetryError e3), w3) /\
  backoff 1 = 2 /\ backoff 2 = 2.
Proof.
  intros H1 H2 H3. split; [|split; reflexivity].
  eapply retry_three_failures; eassumption.
Qed.

Example backoff_values :
  map backoff [1; 2; 3; 4; 5; 6] = [2; 2; 4; 8; 10; 10].
Proof. reflexivity. Qed.

(** ** Service resolution and the provisioning call *)

Lemma get_service_url_effects service_name w r w1 :
  get_service_url service_name w = (r, w1) ->
  only_looked_up w w1 /\
  match eureka w (eureka_calls w) service_name with
  | Instances (instance :: _) =>
      r = Ok (Some ("http://" +:+ ipAddr instance +:+ ":" +:+ port instance))
  | Instances [] => r = Ok None
  | RegistryRaises _ => r = Ok None
  end.
Proof.
  unfold get_service_url, try_except, bind, eureka_client_get_service_instances,
    only_looked_up.
  destruct (eureka w (eureka_calls w) service_name) as [[|i l]|e]; cbn;
    intros H; inversion H; subst; cbn; repeat split; auto.
  - exists []. rewrite app_nil_r. auto.
  - exists []. rewrite app_nil_r. auto.
  - eexists. split; [reflexivity|]. repeat constructor.
Qed.

Lemma body_skips_when_unresolved customer_id w w1 :
  get_service_url "LOGIN-SERVICE" w = (Ok None, w1) ->
  create_user_in_login_service_body customer_id w = (Ok tt, w1).
Proof.
  intros H. unfold create_user_in_login_service_body, try_except, bind.
  rewrite H. reflexivity.
Qed.

(** ** C10: an unresolved service is skipped silently *)

(** C10. Whenever [get_service_url] returns [None], the provisioning
    function returns normally, with the value a successful provisioning
    returns, in the world the lookup left: no HTTP request is made, the
    clock has not moved and nothing was slept (no second attempt), and the
    module-level breaker is untouched. *)
Theorem unresolved_service_is_skipped :
  forall customer_id w w1,
    get_service_url "LOGIN-SERVICE" w = (Ok None, w1) ->
    create_user_in_login_service customer_id w = (Ok tt, w1) /\
    only_looked_up w w1 /\
    (forall w2 url w3 status_code w4,
       get_service_url "LOGIN-SERVICE" w2 = (Ok (Some url), w3) ->
       requests_post (url +:+ "/login/createuser") customer_id
         "defaultPassword123" 5 w3 = (Ok status_code, w4) ->
       raise_for_status status_code w4 = (Ok tt, w4) ->
       create_user_in_login_service customer_id w2 = (Ok tt, w4)).
Proof.
  intros customer_id w w1 H. split; [|split].
  - apply retry_first_success, body_skips_when_unresolved, H.
  - apply (get_service_url_effects _ _ _ _ H).
  - intros w2 url w3 status_code w4 Hu Hp Hs.
    apply retry_first_success.
    unfold create_user_in_login_service_body, try_except, bind.
    rewrite Hu.
    assert (Ht : truthy (Some url) = true).
    { apply get_service_url_effects in Hu. destruct Hu as [_ Hu].
      destruct (eureka w2 (eureka_calls w2) "LOGIN-SERVICE") as [[|i l]|e];
        try discriminate. inversion Hu. reflexivity. }
    rewrite Ht, Hp, Hs. reflexivity.
Qed.

(** ** C3: a failed resolution *)

(** C3, as stated, fails: with a registry that lists no instance the
    invocation returns normally, no error of any kind comes out of it, and
    the breaker's failure count stays where it was. *)
Lemma unresolved_is_not_an_error :
  eureka quiet_world (eureka_calls quiet_world) "LOGIN-SERVICE" = Instances [] /\
  fst (create_user_in_login_service "123" quiet_world) = Ok tt /\
  failure_count
    (circuit_breaker (snd (create_user_in_login_service "123" quiet_world))) = 0.
Proof. repeat split. Qed.

(** C3, amended. For every invocation in which service resolution fails
    (the registry returns no instances or the registry call raises),
    [get_service_url] returns [None], the invocation returns normally
    without any error, and the circuit breaker is left as it was: no
    failure is counted. *)
Theorem resolution_failure_returns_normally :
  forall customer_id w,
    (eureka w (eureka_calls w) "LOGIN-SERVICE" = Instances [] \/
     exists e, eureka w (eureka_calls w) "LOGIN-SERVICE" = RegistryRaises e) ->
    exists w1,
      get_service_url "LOGIN-SERVICE" w = (Ok None, w1) /\
      create_user_in_login_service customer_id w = (Ok tt, w1) /\
      circuit_breaker w1 = circuit_breaker w.
Proof.
  intros customer_id w H.
  destruct (get_service_url "LOGIN-SERVICE" w) as [r w1] eqn:Hg.
  pose proof (get_service_url_effects _ _ _ _ Hg) as [Heff Hr].
  assert (r = Ok None) as ->.
  { destruct H as [H|[e H]]; rewrite H in Hr; exact Hr. }
  exists w1. split; [reflexivity|]. split.
  - apply retry_first_success, body_skips_when_unresolved, Hg.
  - apply Heff.
Qed.

Lemma resolution_failure_returns_normally_witness :
  exists w1,
    get_service_url "LOGIN-SERVICE" quiet_world = (Ok None, w1) /\
    create_user_in_login_service "123" quiet_world = (Ok tt, w1) /\
    circuit_breaker w1 = circuit_breaker quiet_world.
Proof.
  apply (resolution_failure_returns_normally "123" quiet_world).
  left. reflexivity.
Defined.

Lemma unresolved_service_is_skipped_witness :
  create_user_in_login_service "123" quiet_world
    = (Ok tt, set_eureka_calls 1 quiet_world).
Proof.
  apply (proj1 (unresolved_service_is_skipped "123" quiet_world
                  (set_eureka_calls 1 quiet_world) eq_refl)).
Defined.

(** ** C2: the breaker and the provisioning call *)

Lemma ignores_ret A (a : A) : ignores_breaker (ret a).
Proof. intros b w. reflexivity. Qed.

Lemma ignores_raise A e : ignores_breaker (@raise World A e).
Proof. intros b w. reflexivity. Qed.

Lemma ignores_bind A B (m : M A) (k : A -> M B) :
  ignores_breaker m -> (forall a, ignores_breaker (k a)) ->
  ignores_breaker (bind m k).
Proof.
  intros Hm Hk b w. unfold bind. rewrite Hm.
  destruct (m w) as [[a|e] w1]; cbn; [apply Hk | reflexivity].
Qed.

Lemma ignores_try_except A (m : M A) (h : exn -> M A) :
  ignores_breaker m -> (forall e, ignores_breaker (h e)) ->
  ignores_breaker (try_except m h).
Proof.
  intros Hm Hh b w. unfold try_except. rewrite Hm.
  destruct (m w) as [[a|e] w1]; cbn; [reflexivity | apply Hh].
Qed.

Lemma ignores_time_sleep s : ignores_breaker (time_sleep s).
Proof. intros b w. reflexivity. Qed.

Lemma ignores_logger l msg e : ignores_breaker (logger l msg e).
Proof. intros b w. reflexivity. Qed.

Lemma ignores_registry name :
  ignores_breaker (eureka_client_get_service_instances name).
Proof.
  intros b w. unfold eureka_client_get_service_instances. cbn.
  destruct (eureka w (eureka_calls w) name); reflexivity.
Qed.

Lemma ignores_requests_post url c p t : ignores_breaker (requests_post url c p t).
Proof.
  intros b w. unfold requests_post. cbn.
  destruct (login_service w (posts w)); reflexivity.
Qed.

Lemma ignores_raise_for_status code : ignores_breaker (raise_for_status code).
Proof.
  unfold raise_for_status.
  destruct ((400 <=? code) && (code <? 600)); [apply ignores_raise | apply ignores_ret].
Qed.

Create HintDb ignores.
#[local] Hint Resolve ignores_ret ignores_raise ignores_bind ignores_try_except
  ignores_time_sleep ignores_logger ignores_registry ignores_requests_post
  ignores_raise_for_status : ignores.

Lemma ignores_get_service_url name : ignores_breaker (get_service_url name).
Proof.
  unfold get_service_url. apply ignores_try_except.
  - apply ignores_bind; auto with ignores.
    intros [|i l]; auto with ignores.
  - intros e. auto with ignores.
Qed.

Lemma ignores_body customer_id :
  ignores_breaker (create_user_in_login_service_body customer_id).
Proof.
  unfold create_user_in_login_service_body. apply ignores_try_except.
  - apply ignores_bind; [apply ignores_get_service_url|].
    intros [url|]; auto with ignores.
    destruct (truthy (Some url)); auto with ignores.
  - intros e. auto with ignores.
Qed.

Lemma ignores_retrying A wait more (fn : M A) :
  ignores_breaker fn -> forall n, ignores_breaker (retrying wait more n fn).
Proof.
  intros Hfn. induction more as [|more IH]; intros n; cbn [retrying];
    apply ignores_try_except; auto with ignores.
Qed.

(** C2, as stated, fails: with the process-wide breaker OPEN and its
    recovery timeout not yet over, one provisioning call still runs the
    operation three times (three HTTP posts), and its three failures leave
    the breaker's failure count at 5. Had the sequence gone through
    [call], it would have been rejected without a post. *)
Lemma provisioning_runs_while_breaker_open :
  state (circuit_breaker refusing_world) = OPEN /\
  clock refusing_world - 0 <= recovery_timeout (circuit_breaker refusing_world) /\
  fst (create_user_in_login_service "123" refusing_world)
    = Raise (RetryError (Exc RequestExceptionC "connection refused")) /\
  posts (snd (create_user_in_login_service "123" refusing_world)) = 3%nat /\
  failure_count
    (circuit_breaker (snd (create_user_in_login_service "123" refusing_world))) = 5 /\
  call (create_user_in_login_service_body "123")
       (circuit_breaker refusing_world, refusing_world)
    = (Raise CircuitOpenError, (circuit_breaker refusing_world, refusing_world)).
Proof. repeat split. cbn. lia. Qed.

(** C2, amended. No downstream provisioning attempt goes through
    [CircuitBreaker.call]: [create_user_in_login_service] runs service
    resolution and the network call under the retry decorator alone. The
    process-wide breaker is never updated by it, so failures of the sequence
    are not counted, and the call does the same whatever the breaker holds,
    so an OPEN breaker does not keep the operation from being invoked. *)
Theorem provisioning_bypasses_breaker :
  forall customer_id w,
    circuit_breaker (snd (create_user_in_login_service customer_id w))
      = circuit_breaker w /\
    forall b,
      create_user_in_login_service customer_id (set_circuit_breaker b w) =
        (fst (create_user_in_login_service customer_id w),
         set_circuit_breaker b (snd (create_user_in_login_service customer_id w))).
Proof.
  intros customer_id w.
  assert (H : ignores_breaker (create_user_in_login_service customer_id)).
  { unfold create_user_in_login_service, retry.
    apply ignores_retrying, ignores_body. }
  split; [|intros b; apply H].
  specialize (H (circuit_breaker w) w).
  replace (set_circuit_breaker (circuit_breaker w) w) with w in H
    by (destruct w; reflexivity).
  destruct (create_user_in_login_service customer_id w) as [r w1]; cbn in *.
  inversion H as [Hw]. rewrite Hw at 1. reflexivity.
Qed.

(** ** C9: validation *)

Lemma not_empty s : dto.not_ s = true <-> s = "".
Proof. destruct s; cbn; split; congruence. Qed.

Lemma validate_lists_missing d : dto.validate d = List.map snd (missing d).
Proof.
  destruct d as [d f l a p e]. unfold dto.validate, missing, required. cbn.
  destruct d, f, l, a, p, e; reflexivity.
Qed.

(** C9. A POST whose body carries the six fields with at least one of them
    empty is answered 400 with the list built by [validate], which holds
    the message of every empty field (and only those, in field order); the
    world is returned as it was: no round trip to the database, no row, no
    registry lookup and no HTTP post. *)
Theorem empty_fields_are_rejected :
  forall request data d w,
    method request = POST ->
    json request = JsonObject data ->
    dto.CustomerCreateDTO_init data = Ok d ->
    (exists field msg, In (field, msg) required /\ field d = "") ->
    create_customer request w
      = (Ok ([("errors", JStrings (dto.validate d))], 400), w) /\
    dto.validate d = List.map snd (missing d) /\
    (forall field msg,
       In (field, msg) required -> field d = "" -> In msg (dto.validate d)).
Proof.
  intros request data d w Hm Hj Hd (field & msg & Hin & Hempty).
  assert (Hall : forall field msg,
            In (field, msg) required -> field d = "" -> In msg (dto.validate d)).
  { intros f m Hf He. rewrite validate_lists_missing.
    apply (in_map snd (missing d) (f, m)). unfold missing.
    apply filter_In. split; [exact Hf|]. cbn. apply not_empty, He. }
  split; [|split; [apply validate_lists_missing | exact Hall]].
  unfold create_customer. rewrite Hm.
  unfold try_except, bind, request_json, lift_outcome. rewrite Hj. cbn.
  rewrite Hd.
  destruct (dto.validate d) as [|m ms] eqn:Ev.
  - exfalso. apply (Hall field msg Hin Hempty).
  - reflexivity.
Qed.

Example scenario_3 :
  create_customer nameless quiet_world
    = (Ok ([("errors", JStrings ["First name is required"])], 400), quiet_world).
Proof. vm_compute. reflexivity. Qed.

Lemma empty_fields_are_rejected_witness :
  create_customer nameless quiet_world
    = (Ok ([("errors", JStrings ["First name is required"])], 400), quiet_world).
Proof.
  apply (proj1 (empty_fields_are_rejected nameless
                  (body_of "123" "" "Li" "x" "555" "a@b.c")
                  {| dto.document := "123"; dto.firstname := "";
                     dto.lastname := "Li"; dto.address := "x";
                     dto.phone := "555"; dto.email := "a@b.c" |}
                  quiet_world eq_refl eq_refl eq_refl
                  (ex_intro _ dto.firstname
                     (ex_intro _ "First name is required"
                        (conj (or_intror (or_introl eq_refl)) eq_refl))))).
Defined.

(** ** C1: provisioning failures do not reach the response *)

(** The [try]/[except] around the provisioning call, lines 84-87, never
    raises. *)
Lemma provisioning_is_absorbed customer_id w :
  exists w',
    try_except (create_user_in_login_service customer_id)
      (fun e => logger WARNING "Could not create user in login service" e) w
    = (Ok tt, w').
Proof.
  unfold try_except.
  destruct (create_user_in_login_service customer_id w) as [[[]|e] w1];
    eexists; reflexivity.
Qed.

(** C1. A POST that passes validation, finds no row with its document and
    whose write succeeds under [execute_with_retry] is answered 201 with
    [{"createCustomerValid": true}], whatever the provisioning call does
    in the world the write left: a result or any exception, [RetryError]
    after three attempts included. An exception only adds a warning to the
    journal. *)
Theorem registration_isolated_from_provisioning :
  forall request data d w w1 w2,
    method request = POST ->
    json request = JsonObject data ->
    dto.CustomerCreateDTO_init data = Ok d ->
    dto.validate d = [] ->
    session_query_first (dto.document d) (snd (SessionLocal w)) = (Ok None, w1) ->
    execute_with_retry (save_customer (Customer_of d)) w1 = (Ok tt, w2) ->
    create_customer request w
      = (Ok ([("createCustomerValid", JBool true)], 201),
         snd (session_close (after_provisioning (dto.document d) w2))).
Proof.
  intros request data d w w1 w2 Hm Hj Hd Hv Hq Hs.
  unfold create_customer. rewrite Hm.
  unfold try_except at 1. unfold bind at 1. unfold request_json. rewrite Hj.
  cbn [ret]. unfold bind at 1. unfold lift_outcome. rewrite Hd, Hv.
  unfold bind at 1.
  change (SessionLocal w) with (Ok tt, snd (SessionLocal w)).
  unfold try_finally. unfold bind at 1. rewrite Hq.
  unfold bind at 1. rewrite Hs.
  unfold bind at 1. unfold after_provisioning, try_except.
  destruct (create_user_in_login_service (dto.document d) w2) as [[[]|e] w3];
    reflexivity.
Qed.

Lemma registration_isolated_from_provisioning_witness :
  fst (create_user_in_login_service "123" ana_saved)
    = Raise (RetryError (Exc RequestExceptionC "connection refused")) /\
  create_customer ana refusing_world
    = (Ok ([("createCustomerValid", JBool true)], 201),
       snd (session_close (after_provisioning "123" ana_saved))).
Proof.
  split; [vm_compute; reflexivity|].
  apply (registration_isolated_from_provisioning ana
           (body_of "123" "Ana" "Li" "x" "555" "a@b.c") ana_dto
           refusing_world ana_checked ana_saved);
    vm_compute; reflexivity.
Defined.

Example scenario_1 :
  fst (create_customer ana quiet_world)
    = Ok ([("createCustomerValid", JBool true)], 201) /\
  customer_table (snd (create_customer ana quiet_world)) !! "123"
    = Some (Customer_of ana_dto).
Proof. split; vm_compute; reflexivity. Qed.

Example scenario_2 :
  fst (create_customer ana (snd (create_customer ana quiet_world)))
    = Ok ([("error", JString "Customer already exists");
           ("createCustomerValid", JBool false)], 409).
Proof. vm_compute. reflexivity. Qed.

(** ** Witnesses for the breaker *)

Lemma failing_calls_reachable threshold timeout A n self self' :
  reachable threshold timeout self ->
  @failing_calls A n self self' ->
  reachable threshold timeout self'.
Proof.
  intros Hr H. induction H as [|n self self1 self' func w e w' Hc _ IH];
    [exact Hr|].
  apply IH. eapply reachable_call; eauto.
Qed.

Lemma tripped_breaker_failing_calls :
  @failing_calls unit 5 (CircuitBreaker_init 5 60) tripped_breaker.
Proof.
  do 5 (eapply failing_calls_S with (func := raise boom) (w := quiet_world);
        [reflexivity|]).
  apply failing_calls_0.
Qed.

Lemma tripped_breaker_reachable : reachable 5 60 tripped_breaker.
Proof.
  eapply failing_calls_reachable;
    [apply reachable_init | apply tripped_breaker_failing_calls].
Qed.

Lemma sixth_call_rejected_witness :
  state tripped_breaker = OPEN /\ failure_count tripped_breaker = 5 /\
  exists t, last_failure_time tripped_breaker = Some t /\
    forall (B : Type) (func : M B) (w : World),
      clock w - t <= recovery_timeout tripped_breaker ->
      call func (tripped_breaker, w) = (Raise CircuitOpenError, (tripped_breaker, w)).
Proof.
  apply (sixth_call_rejected unit 60 tripped_breaker
           tripped_breaker_failing_calls).
Defined.

(** Six calls of an operation that posts to the refusing login service: the
    count of posts is 5 after the fifth call and still 5 after the sixth. *)
Example operation_counter_stays_at_five :
  posts (snd (calls 5 post_once (circuit_breaker_0, quiet_world))) = 5%nat /\
  fst (call post_once (calls 5 post_once (circuit_breaker_0, quiet_world)))
    = Raise CircuitOpenError /\
  posts (snd (calls 6 post_once (circuit_breaker_0, quiet_world))) = 5%nat.
Proof. repeat split. Qed.

Lemma half_open_trial_witness :
  exists self',
    call (@ret World unit tt) (tripped_breaker, later)
      = (fst (ret tt later), (self', snd (@ret World unit tt later))) /\
    match fst (@ret World unit tt later) with
    | Ok _ => state self' = CLOSED /\ failure_count self' = 0
    | Raise _ =>
        state self' = OPEN /\
        last_failure_time self' = Some (clock (snd (@ret World unit tt later))) /\
        forall (B : Type) (g : M B) (w2 : World),
          clock w2 - clock (snd (@ret World unit tt later)) <= recovery_timeout self' ->
          call g (self', w2) = (Raise CircuitOpenError, (self', w2))
    end.
Proof.
  apply (half_open_trial 5 60 tripped_breaker 0 unit (ret tt) later
           tripped_breaker_reachable eq_refl eq_refl).
  cbn. lia.
Defined.

Example half_open_trial_fails :
  call (@raise World unit boom) (tripped_breaker, later)
    = (Raise boom,
       ({| failure_threshold := 5; recovery_timeout := 60; failure_count := 6;
           last_failure_time := Some 100; state := OPEN |}, later)).
Proof. reflexivity. Qed.

Lemma breaker_invariants_witness :
  (state tripped_breaker = OPEN -> is_Some (last_failure_time tripped_breaker)) /\
  forall (A : Type) (func : M A) (w : World) r self' w',
    call func (tripped_breaker, w) = (r, (self', w')) ->
    ((state tripped_breaker <> CLOSED /\ state self' = CLOSED) <->
     (failure_count tripped_breaker <> 0 /\ failure_count self' = 0)) /\
    (~ (state tripped_breaker <> CLOSED /\ state self' = CLOSED) ->
     failure_count tripped_breaker <= failure_count self').
Proof.
  apply (breaker_invariants 5 60 tripped_breaker tripped_breaker_reachable).
Defined.

(** * Further properties of the code *)

(** ** The breaker beyond the claims *)

(** X1. On a breaker produced by calls, [call] either rejects (the breaker
    is OPEN and the recovery timeout is not over: the rejection is raised,
    object and world are unchanged, the operation is not run) or runs the
    operation exactly once and hands back its result or its exception
    unchanged, keeping the configured threshold and timeout. *)
Theorem call_runs_once_or_rejects :
  forall (threshold timeout : Z) (self : CircuitBreaker)
         (A : Type) (func : M A) (w : World),
    reachable threshold timeout self ->
    (state self = OPEN /\
     (exists t, last_failure_time self = Some t /\
                clock w - t <= recovery_timeout self) /\
     call func (self, w) = (Raise CircuitOpenError, (self, w)))
    \/
    (exists self',
       call func (self, w) = (fst (func w), (self', snd (func w))) /\
       failure_threshold self' = failure_threshold self /\
       recovery_timeout self' = recovery_timeout self).
Proof.
  intros threshold timeout self A func w Hr.
  pose proof (reachable_inv _ _ _ Hr) as (Hth & Hto & Hc & Hh & Ho).
  destruct (call func (self, w)) as [r [self' w']] eqn:Hcall.
  pose proof (call_preserves_inv _ _ _ _ _ _ _ _ _ (reachable_inv _ _ _ Hr) Hcall)
    as (Hth' & Hto' & _).
  destruct (state self) eqn:Es; try congruence.
  - right. exists self'. rewrite call_not_open in Hcall by congruence.
    destruct (func w) as [[a|e] w1]; inversion Hcall; subst;
      cbn [fst snd]; repeat split; congruence.
  - destruct (Ho eq_refl) as (_ & _ & [t Hl]).
    destruct (Z_lt_le_dec (recovery_timeout self) (clock w - t)) as [Hlt|Hle].
    + right. exists self'.
      rewrite (call_open_trial func self w t Es Hl Hlt) in Hcall.
      destruct (func w) as [[a|e] w1]; inversion Hcall; subst;
        cbn [fst snd]; repeat split; congruence.
    + left. rewrite (call_open_rejected func self w t Es Hl Hle) in Hcall.
      inversion Hcall; subst. repeat split; eauto.
Qed.

Lemma call_runs_once_or_rejects_witness :
  (state tripped_breaker = OPEN /\
   (exists t, last_failure_time tripped_breaker = Some t /\
              clock quiet_world - t <= recovery_timeout tripped_breaker) /\
   call post_once (tripped_breaker, quiet_world)
     = (Raise CircuitOpenError, (tripped_breaker, quiet_world)))
  \/
  (exists self',
     call post_once (tripped_breaker, quiet_world)
       = (fst (post_once quiet_world), (self', snd (post_once quiet_world))) /\
     failure_threshold self' = failure_threshold tripped_breaker /\
     recovery_timeout self' = recovery_timeout tripped_breaker).
Proof.
  apply (call_runs_once_or_rejects 5 60 tripped_breaker Z post_once quiet_world
           tripped_breaker_reachable).
Defined.

Lemma closed_trace A (trace : list bool) self self' :
  @calls_trace A self trace self' ->
  state self = CLOSED ->
  failure_count self + failures trace < failure_threshold self ->
  state self' = CLOSED /\
  failure_count self' = failure_count self + failures trace /\
  failure_threshold self' = failure_threshold self.
Proof.
  induction 1 as [self|self func w r self1 w' trace self' Hcall _ IH];
    intros Es Hlt.
  - unfold failures in *. cbn in *. repeat split; auto; lia.
  - assert (Hf : 0 <= failures trace) by (unfold failures; lia).
    rewrite call_not_open in Hcall by congruence. rewrite Es in Hcall.
    destruct (func w) as [[a|e] w1]; inversion Hcall; subst; clear Hcall.
    + change (failures (returned (Ok a) :: trace)) with (failures trace) in *.
      apply IH; assumption.
    + assert (Hs : failures (returned (@Raise A e) :: trace) = 1 + failures trace).
      { unfold failures. cbn [returned List.filter negb length].
        rewrite Nat2Z.inj_succ. lia. }
      rewrite Hs in *.
      assert (Hrec : record_failure (clock w') self =
                     set_last_failure_time (Some (clock w'))
                       (set_failure_count (failure_count self + 1) self)).
      { unfold record_failure. cbn.
        destruct (failure_threshold self <=? failure_count self + 1) eqn:E;
          [apply Z.leb_le in E; lia | reflexivity]. }
      rewrite Hrec in *. cbn in IH.
      destruct IH as (H1 & H2 & H3); [exact Es | lia |].
      repeat split; auto; lia.
Qed.

(** X2. The failure count is cumulative while the breaker is CLOSED: a
    call that returns does not clear it. After any series of calls on a
    fresh breaker in which fewer than [failure_threshold] calls raised, the
    breaker is CLOSED and [failure_count] is the number of calls that
    raised, however many calls returned in between. *)
Theorem failures_accumulate_while_closed :
  forall (A : Type) (threshold timeout : Z) (trace : list bool)
         (self' : CircuitBreaker),
    @calls_trace A (CircuitBreaker_init threshold timeout) trace self' ->
    failures trace < threshold ->
    state self' = CLOSED /\ failure_count self' = failures trace.
Proof.
  intros A threshold timeout trace self' H Hlt.
  apply closed_trace in H; cbn; [|reflexivity|lia].
  destruct H as (H1 & H2 & _). cbn in H2. split; [exact H1 | lia].
Qed.

Lemma failing_calls_open threshold timeout A n self self' :
  @failing_calls A n self self' ->
  breaker_inv threshold timeout self ->
  (state self = OPEN -> state self' = OPEN) /\
  (state self = CLOSED -> threshold <= failure_count self + Z.of_nat n ->
   (1 <= n)%nat -> state self' = OPEN).
Proof.
  induction 1 as [self|n self self1 self' func w e w' Hcall _ IH]; intros Hinv.
  - split; [auto | intros; lia].
  - pose proof (call_preserves_inv _ _ _ _ _ _ _ _ _ Hinv Hcall) as Hinv1.
    specialize (IH Hinv1). destruct IH as [IHo IHc].
    destruct Hinv as (Hth & Hto & Hc & Hh & Ho).
    split.
    + intros Es. apply IHo. destruct (Ho Es) as (Hge & _ & [t Hl]).
      destruct (Z_lt_le_dec (recovery_timeout self) (clock w - t)) as [Hlt|Hle].
      * rewrite (call_open_trial func self w t Es Hl Hlt) in Hcall.
        destruct (func w) as [[a|e0] w1]; inversion Hcall; subst.
        unfold record_failure; cbn.
        destruct (failure_threshold self <=? failure_count self + 1) eqn:E;
          [reflexivity | apply Z.leb_gt in E; lia].
      * rewrite (call_open_rejected func self w t Es Hl Hle) in Hcall.
        inversion Hcall; subst. exact Es.
    + intros Es Hge Hn.
      apply closed_failing_call in Hcall; [|exact Es]. subst self1.
      unfold record_failure in *. cbn in *.
      destruct (failure_threshold self <=? failure_count self + 1) eqn:E.
      * apply IHo. reflexivity.
      * apply Z.leb_gt in E. cbn in *. apply IHc; [exact Es | lia | lia].
Qed.

(** X3. For any configured threshold, once at least [failure_threshold]
    calls in a row (and at least one) have raised on a fresh breaker, the
    breaker is OPEN; it stays OPEN however many further calls raise. *)
Theorem enough_failures_open_the_breaker :
  forall (A : Type) (threshold timeout : Z) (n : nat) (self' : CircuitBreaker),
    @failing_calls A n (CircuitBreaker_init threshold timeout) self' ->
    (1 <= n)%nat ->
    threshold <= Z.of_nat n ->
    state self' = OPEN.
Proof.
  intros A threshold timeout n self' H Hn Hth.
  apply (failing_calls_open threshold timeout) in H;
    [|apply breaker_inv_init].
  destruct H as [_ H]. apply H; cbn; [reflexivity | lia | exact Hn].
Qed.

Lemma enough_failures_open_the_breaker_witness : state tripped_breaker = OPEN.
Proof.
  apply (enough_failures_open_the_breaker unit 5 60 5 tripped_breaker
           tripped_breaker_failing_calls); [lia | lia].
Defined.

Lemma failures_accumulate_while_closed_witness :
  state {| failure_threshold := 5; recovery_timeout := 60; failure_count := 4;
           last_failure_time := Some 0; state := CLOSED |} = CLOSED /\
  failure_count {| failure_threshold := 5; recovery_timeout := 60;
                   failure_count := 4; last_failure_time := Some 0;
                   state := CLOSED |}
    = failures [false; true; false; true; false; false].
Proof.
  apply (failures_accumulate_while_closed unit 5 60
           [false; true; false; true; false; false]).
  - eapply calls_trace_cons with (func := raise boom) (w := quiet_world) (r := Raise boom); [reflexivity|].
    eapply calls_trace_cons with (func := ret tt) (w := quiet_world) (r := Ok tt); [reflexivity|].
    eapply calls_trace_cons with (func := raise boom) (w := quiet_world) (r := Raise boom); [reflexivity|].
    eapply calls_trace_cons with (func := ret tt) (w := quiet_world) (r := Ok tt); [reflexivity|].
    eapply calls_trace_cons with (func := raise boom) (w := quiet_world) (r := Raise boom); [reflexivity|].
    eapply calls_trace_cons with (func := raise boom) (w := quiet_world) (r := Raise boom); [reflexivity|].
    apply calls_trace_nil.
  - vm_compute. reflexivity.
Defined.

(** ** The retry decorator beyond the claims *)

(** X4. A transient failure is masked: when the operation raises on the
    first attempt and returns on the second, made after a sleep of
    [backoff 1] seconds, [execute_with_retry] returns that result; likewise
    when only the third attempt returns. *)
Theorem retry_recovers :
  forall (A : Type) (func : M A) w e1 w1,
    func w = (Raise e1, w1) ->
    (forall a w2,
       func (snd (time_sleep (backoff 1) w1)) = (Ok a, w2) ->
       execute_with_retry func w = (Ok a, w2)) /\
    (forall e2 w2 a w3,
       func (snd (time_sleep (backoff 1) w1)) = (Raise e2, w2) ->
       func (snd (time_sleep (backoff 2) w2)) = (Ok a, w3) ->
       execute_with_retry func w = (Ok a, w3)).
Proof.
  intros A func w e1 w1 H1. split.
  - intros a w2 H2. unfold execute_with_retry, retry. cbn [Nat.sub retrying].
    unfold try_except at 1. rewrite H1. unfold bind at 1.
    rewrite time_sleep_ok. unfold try_except at 1.
    fold backoff. rewrite H2. reflexivity.
  - intros e2 w2 a w3 H2 H3. unfold execute_with_retry, retry.
    cbn [Nat.sub retrying].
    unfold try_except at 1. rewrite H1. unfold bind at 1.
    rewrite time_sleep_ok. unfold try_except at 1. fold backoff. rewrite H2.
    unfold bind at 1. rewrite time_sleep_ok. unfold try_except.
    replace (1 + 1) with 2 by reflexivity. rewrite H3. reflexivity.
Qed.

Lemma retry_recovers_witness :
  execute_with_retry db_round_trip flaky_world
    = (Ok tt,
       snd (db_round_trip
              (snd (time_sleep (backoff 1) (snd (db_round_trip flaky_world)))))).
Proof.
  apply (proj1 (retry_recovers unit db_round_trip flaky_world boom
                  (snd (db_round_trip flaky_world)) eq_refl) tt).
  reflexivity.
Defined.

Lemma retrying_raises A wait more (fn : M A) :
  forall n w e,
    fst (retrying wait more n fn w) = Raise e ->
    exists e' w0, e = RetryError e' /\ fst (fn w0) = Raise e'.
Proof.
  induction more as [|more IH]; intros n w e H; cbn [retrying] in H;
    unfold try_except in H; destruct (fn w) as [[a|e0] w1] eqn:Hfn.
  - discriminate.
  - inversion H. exists e0, w. rewrite Hfn. auto.
  - discriminate.
  - unfold bind in H. rewrite time_sleep_ok in H. apply IH in H. exact H.
Qed.

(** X5. [execute_with_retry] and the decorated provisioning function never
    let an exception of the operation out as it is: whatever they raise is
    a [RetryError], and the error it holds is one the operation raised. *)
Theorem retry_raises_only_RetryError :
  (forall (A : Type) (func : M A) w e,
     fst (execute_with_retry func w) = Raise e ->
     exists e' w0, e = RetryError e' /\ fst (func w0) = Raise e') /\
  (forall customer_id w e,
     fst (create_user_in_login_service customer_id w) = Raise e ->
     exists e' w0, e = RetryError e' /\
       fst (create_user_in_login_service_body customer_id w0) = Raise e').
Proof.
  split; intros; eapply retrying_raises; eassumption.
Qed.

Lemma retry_raises_only_RetryError_witness :
  exists e' w0,
    RetryError (Exc RequestExceptionC "connection refused") = RetryError e' /\
    fst (create_user_in_login_service_body "123" w0) = Raise e'.
Proof.
  apply (proj2 retry_raises_only_RetryError "123" refusing_world).
  vm_compute. reflexivity.
Defined.

(** ** Service resolution and provisioning beyond the claims *)

Lemma within_refl w : within 0 0 w w.
Proof. unfold within. repeat split; lia. Qed.




Lemma body_cases customer_id w :
  create_user_in_login_service_body customer_id w =
    match eureka w (eureka_calls w) "LOGIN-SERVICE" with
    | Instances (i :: _) =>
        match login_service w (posts w) with
        | Responds code =>
            if (400 <=? code) && (code <? 600)
            then (Raise (Exc HTTPErrorC "HTTP error"),
                  attempt_failed (Exc HTTPErrorC "HTTP error")
                    (posted i customer_id w))
            else (Ok tt, posted i customer_id w)
        | RequestRaises e => (Raise e, attempt_failed e (posted i customer_id w))
        end
    | Instances [] => (Ok tt, set_eureka_calls (S (eureka_calls w)) w)
    | RegistryRaises e =>
        (Ok tt,
         snd (logger ERROR "Failed to get service URL for LOGIN-SERVICE" e
                (set_eureka_calls (S (eureka_calls w)) w)))
    end.
Proof.
  unfold create_user_in_login_service_body, get_service_url, try_except, bind,
    eureka_client_get_service_instances, requests_post, raise_for_status.
  destruct (eureka w (eureka_calls w) "LOGIN-SERVICE") as [[|i l]|e];
    try reflexivity.
  cbn -[String.append truthy].
  change (truthy (Some ("http://" +:+ ipAddr i +:+ ":" +:+ port i))) with true.
  cbv beta iota. cbn [posts login_service set_eureka_calls].
  destruct (login_service w (posts w)) as [code|e]; [|reflexivity].
  destruct ((400 <=? code) && (code <? 600)); reflexivity.
Qed.





(** X8. When the registry lists an instance and the login service answers
    with a status outside 400-599, the provisioning call succeeds at its
    first attempt: exactly one post, to [/login/createuser] on the first
    instance, carrying the customer id and the fixed default password with
    a 5-second timeout; nothing is slept and nothing is logged. *)
Theorem provisioning_posts_once :
  forall customer_id w i l code,
    eureka w (eureka_calls w) "LOGIN-SERVICE" = Instances (i :: l) ->
    login_service w (posts w) = Responds code ->
    code < 400 \/ 600 <= code ->
    create_user_in_login_service customer_id w = (Ok tt, posted i customer_id w) /\
    journal (posted i customer_id w) =
      journal w ++
      [Post (("http://" +:+ ipAddr i +:+ ":" +:+ port i) +:+ "/login/createuser")
         customer_id "defaultPassword123" 5] /\
    posts (posted i customer_id w) = S (posts w) /\
    clock (posted i customer_id w) = clock w.
Proof.
  intros customer_id w i l code He Hl Hc. split; [|split; [|split]].
  - apply retry_first_success. rewrite body_cases, He, Hl.
    destruct ((400 <=? code) && (code <? 600)) eqn:E; [|reflexivity].
    apply andb_true_iff in E. destruct E as [E1 E2].
    apply Z.leb_le in E1. apply Z.ltb_lt in E2. lia.
  - reflexivity.
  - reflexivity.
  - reflexivity.
Qed.

Lemma provisioning_posts_once_witness :
  create_user_in_login_service "123" healthy_world
    = (Ok tt, posted {| ipAddr := "10.0.0.7"; port := "8081" |} "123" healthy_world) /\
  journal (posted {| ipAddr := "10.0.0.7"; port := "8081" |} "123" healthy_world) =
    journal healthy_world ++
    [Post (("http://" +:+ "10.0.0.7" +:+ ":" +:+ "8081") +:+ "/login/createuser")
       "123" "defaultPassword123" 5] /\
  posts (posted {| ipAddr := "10.0.0.7"; port := "8081" |} "123" healthy_world)
    = S (posts healthy_world) /\
  clock (posted {| ipAddr := "10.0.0.7"; port := "8081" |} "123" healthy_world)
    = clock healthy_world.
Proof.
  apply (provisioning_posts_once "123" healthy_world
           {| ipAddr := "10.0.0.7"; port := "8081" |} [] 200 eq_refl eq_refl).
  left. lia.
Defined.

Lemma failing_attempt customer_id w :
  (forall n, exists i l, eureka w n "LOGIN-SERVICE" = Instances (i :: l)) ->
  (forall n, exists code, login_service w n = Responds code /\ 400 <= code < 600) ->
  exists w1,
    create_user_in_login_service_body customer_id w
      = (Raise (Exc HTTPErrorC "HTTP error"), w1) /\
    eureka w1 = eureka w /\ login_service w1 = login_service w /\
    posts w1 = S (posts w) /\ clock w1 = clock w.
Proof.
  intros He Hl.
  destruct (He (eureka_calls w)) as (i & l & Hi).
  destruct (Hl (posts w)) as (code & Hc & Hr).
  rewrite body_cases, Hi, Hc.
  assert (E : (400 <=? code) && (code <? 600) = true).
  { apply andb_true_iff. split; [apply Z.leb_le | apply Z.ltb_lt]; lia. }
  rewrite E. eexists. split; [reflexivity|]. cbn. auto.
Qed.

(** X9. A 4xx or 5xx answer is a failed attempt like a refused connection:
    while the registry keeps listing an instance and the login service
    keeps answering with such a status, one provisioning call posts three
    times, sleeps 2 seconds after the first and after the second attempt,
    and raises [RetryError] holding the [HTTPError] of
    [raise_for_status]. *)
Theorem http_error_status_exhausts_retries :
  forall customer_id w,
    (forall n, exists i l, eureka w n "LOGIN-SERVICE" = Instances (i :: l)) ->
    (forall n, exists code,
        login_service w n = Responds code /\ 400 <= code < 600) ->
    fst (create_user_in_login_service customer_id w)
      = Raise (RetryError (Exc HTTPErrorC "HTTP error")) /\
    posts (snd (create_user_in_login_service customer_id w)) = (posts w + 3)%nat /\
    clock (snd (create_user_in_login_service customer_id w)) = clock w + 4.
Proof.
  intros customer_id w He Hl.
  destruct (failing_attempt customer_id w He Hl) as (w1 & B1 & E1 & L1 & P1 & C1).
  set (w1s := snd (time_sleep (wait_exponential 1 2 10 1) w1)).
  assert (He1 : forall n, exists i l, eureka w1s n "LOGIN-SERVICE" = Instances (i :: l)).
  { intros n. change (eureka w1s) with (eureka w1). rewrite E1. apply He. }
  assert (Hl1 : forall n, exists code,
             login_service w1s n = Responds code /\ 400 <= code < 600).
  { intros n. change (login_service w1s) with (login_service w1). rewrite L1.
    apply Hl. }
  destruct (failing_attempt customer_id w1s He1 Hl1)
    as (w2 & B2 & E2 & L2 & P2 & C2).
  set (w2s := snd (time_sleep (wait_exponential 1 2 10 2) w2)).
  assert (He2 : forall n, exists i l, eureka w2s n "LOGIN-SERVICE" = Instances (i :: l)).
  { intros n. change (eureka w2s) with (eureka w2). rewrite E2. apply He1. }
  assert (Hl2 : forall n, exists code,
             login_service w2s n = Responds code /\ 400 <= code < 600).
  { intros n. change (login_service w2s) with (login_service w2). rewrite L2.
    apply Hl1. }
  destruct (failing_attempt customer_id w2s He2 Hl2)
    as (w3 & B3 & E3 & L3 & P3 & C3).
  unfold create_user_in_login_service.
  rewrite (retry_three_failures _ _ _ _ _ _ _ _ _ _ B1 B2 B3). cbn [fst snd].
  split; [reflexivity|]. split.
  - rewrite P3. change (posts w2s) with (posts w2). rewrite P2.
    change (posts w1s) with (posts w1). rewrite P1. lia.
  - rewrite C3. change (clock w2s) with (clock w2 + 2). rewrite C2.
    change (clock w1s) with (clock w1 + 2). rewrite C1. lia.
Qed.

Lemma http_error_status_exhausts_retries_witness :
  fst (create_user_in_login_service "123" erroring_world)
    = Raise (RetryError (Exc HTTPErrorC "HTTP error")) /\
  posts (snd (create_user_in_login_service "123" erroring_world))
    = (posts erroring_world + 3)%nat /\
  clock (snd (create_user_in_login_service "123" erroring_world))
    = clock erroring_world + 4.
Proof.
  apply (http_error_status_exhausts_retries "123" erroring_world).
  - intros n. eexists. eexists. reflexivity.
  - intros n. exists 503. split; [reflexivity | lia].
Defined.

(** ** The registration view beyond the claims *)

Lemma create_customer_POST request w :
  method request = POST ->
  create_customer request w =
    match json request with
    | JsonObject data =>
        match dto.CustomerCreateDTO_init data with
        | Ok d =>
            match dto.validate d with
            | _ :: _ => (Ok ([("errors", JStrings (dto.validate d))], 400), w)
            | [] =>
                match session_query_first (dto.document d) (snd (SessionLocal w)) with
                | (Ok (Some _), w1) =>
                    (Ok ([("error", JString "Customer already exists");
                          ("createCustomerValid", JBool false)], 409),
                     snd (session_close w1))
                | (Ok None, w1) =>
                    match execute_with_retry (save_customer (Customer_of d)) w1 with
                    | (Ok _, w2) =>
                        (Ok ([("createCustomerValid", JBool true)], 201),
                         snd (session_close
                                (after_provisioning (dto.document d) w2)))
                    | (Raise e, w2) => failed e (snd (session_close w2))
                    end
                | (Raise e, w1) => failed e (snd (session_close w1))
                end
            end
        | Raise e => failed e w
        end
    | JsonNull =>
        failed (Exc TypeErrorC "argument after ** must be a mapping, not NoneType") w
    | JsonUnreadable e => failed e w
    end.
Proof.
  intros Hm. unfold create_customer. rewrite Hm.
  unfold try_except at 1. unfold bind at 1. unfold request_json.
  destruct (json request) as [data| |e]; try reflexivity.
  cbn [ret]. unfold bind at 1. unfold lift_outcome.
  destruct (dto.CustomerCreateDTO_init data) as [d|e]; try reflexivity.
  destruct (dto.validate d) as [|m ms] eqn:Ev; [|reflexivity].
  unfold bind at 1. set (w0 := snd (SessionLocal w)).
  change (SessionLocal w) with (Ok tt, w0).
  unfold try_finally. unfold bind at 1.
  destruct (session_query_first (dto.document d) w0)
    as [[[c|]|e] w1]; try reflexivity.
  unfold bind at 1.
  destruct (execute_with_retry (save_customer (Customer_of d)) w1)
    as [[[]|e] w2]; try reflexivity.
  unfold bind, after_provisioning, try_except.
  destruct (create_user_in_login_service (dto.document d) w2) as [[[]|e] w3];
    reflexivity.
Qed.

(** X10. [create_customer] never raises: every request in every world gets
    a response. An OPTIONS request gets 200 and leaves the world as it
    was; a POST gets 201, 400, 409 or 500. *)
Theorem create_customer_always_responds :
  forall request w,
    exists body status,
      fst (create_customer request w) = Ok (body, status) /\
      match method request with
      | OPTIONS => status = 200 /\ snd (create_customer request w) = w
      | POST => status = 201 \/ status = 400 \/ status = 409 \/ status = 500
      end.
Proof.
  intros request w. destruct (method request) eqn:Hm.
  - rewrite (create_customer_POST request w Hm).
    destruct (json request) as [data| |e];
      [|eexists; eexists; split; [reflexivity | auto]..].
    destruct (dto.CustomerCreateDTO_init data) as [d|e];
      [|eexists; eexists; split; [reflexivity | auto]].
    destruct (dto.validate d) as [|m ms];
      [|eexists; eexists; split; [reflexivity | auto]].
    destruct (session_query_first (dto.document d) (snd (SessionLocal w)))
      as [[[c|]|e] w1];
      [eexists; eexists; split; [reflexivity | auto] |
      |eexists; eexists; split; [reflexivity | auto]].
    destruct (execute_with_retry (save_customer (Customer_of d)) w1)
      as [[[]|e] w2]; eexists; eexists; (split; [reflexivity | auto]).
  - unfold create_customer. rewrite Hm. eexists; eexists.
    split; [reflexivity | split; reflexivity].
Qed.

Lemma query_cases doc w :
  session_query_first doc w =
    if session_failed w then (Raise PendingRollbackError, w)
    else
      match db_fault w (db_round_trips w) with
      | Some e => (Raise e, set_db_round_trips (S (db_round_trips w)) w)
      | None => (Ok (customer_table w !! doc),
                 set_db_round_trips (S (db_round_trips w)) w)
      end.
Proof.
  unfold session_query_first, bind, session_statement, db_round_trip, gets.
  destruct (session_failed w); [reflexivity|].
  destruct (db_fault w (db_round_trips w)); reflexivity.
Qed.

Lemma saving_add c w :
  session_failed w = false ->
  (session_new w = [c] /\ customer_table w !! models.document c = None) \/
  (session_new w = [] /\ customer_table w !! models.document c = None) \/
  (session_new w = [] /\ customer_table w !! models.document c = Some c) ->
  exists wa, session_add c w = (Ok tt, wa) /\
    session_failed wa = false /\
    ((session_new wa = [c] /\ customer_table wa !! models.document c = None) \/
     (session_new wa = [] /\ customer_table wa !! models.document c = Some c)).
Proof.
  intros Hf [[Hs Ht]|[[Hs Ht]|[Hs Ht]]]; unfold session_add, modify;
    eexists; (split; [reflexivity|]); rewrite Hs, Ht.
  - rewrite decide_True by set_solver. auto.
  - rewrite decide_False by set_solver. rewrite decide_False by congruence.
    cbn. auto.
  - rewrite decide_False by set_solver. rewrite decide_True by reflexivity.
    auto.
Qed.

Lemma add_keeps_failed c w :
  exists wa, session_add c w = (Ok tt, wa) /\ session_failed wa = session_failed w.
Proof.
  unfold session_add, modify. eexists. split; [reflexivity|].
  repeat case_decide; reflexivity.
Qed.

Lemma save_customer_spec c w :
  saving c w ->
  match save_customer c w with
  | (Ok _, w') =>
      session_new w' = [] /\ customer_table w' !! models.document c = Some c
  | (Raise _, w') => saving c w'
  end.
Proof.
  intros [Hf|[Hf Hs]].
  { destruct (add_keeps_failed c w) as (wa & Ha & Hfa).
    unfold save_customer. unfold bind at 1. rewrite Ha.
    unfold bind at 1. unfold session_commit. rewrite Hfa, Hf.
    left. congruence. }
  destruct (saving_add c w Hf Hs) as (wa & Ha & Hfa & Hwa).
  unfold save_customer. unfold bind at 1. rewrite Ha.
  unfold bind at 1. unfold session_commit. rewrite Hfa.
  unfold try_except, bind at 1. unfold db_round_trip at 1.
  destruct (db_fault wa (db_round_trips wa)) as [e|].
  { left. reflexivity. }
  cbn [session_new customer_table set_db_round_trips].
  destruct Hwa as [[Hn Ht]|[Hn Ht]]; rewrite Hn; cbn [flush].
  - rewrite Ht. cbn [flush]. unfold session_refresh, session_statement.
    cbn [session_failed set_session_new set_customer_table set_db_round_trips].
    rewrite Hfa. unfold db_round_trip.
    cbn [db_fault db_round_trips set_session_new set_customer_table
           set_db_round_trips].
    destruct (db_fault wa (S (db_round_trips wa))) as [e|]; unfold saving; cbn;
      rewrite lookup_insert_eq; auto 10.
  - unfold session_refresh, session_statement.
    cbn [session_failed set_session_new set_customer_table set_db_round_trips].
    rewrite Hfa. unfold db_round_trip.
    cbn [db_fault db_round_trips set_session_new set_customer_table
           set_db_round_trips].
    destruct (db_fault wa (S (db_round_trips wa))) as [e|]; unfold saving; cbn;
      auto 10.
Qed.

Lemma saving_sleep c s w : saving c w -> saving c (snd (time_sleep s w)).
Proof. unfold saving. cbn. auto. Qed.

Lemma retrying_save c wait more :
  forall n w w',
    saving c w ->
    retrying wait more n (save_customer c) w = (Ok tt, w') ->
    customer_table w' !! models.document c = Some c.
Proof.
  induction more as [|more IH]; intros n w w' Hs H; cbn [retrying] in H;
    unfold try_except in H; pose proof (save_customer_spec c w Hs) as Hsp;
    destruct (save_customer c w) as [[[]|e] w1].
  - inversion H; subst. apply Hsp.
  - discriminate.
  - inversion H; subst. apply Hsp.
  - unfold bind in H. rewrite time_sleep_ok in H.
    eapply IH; [|exact H]. apply saving_sleep, Hsp.
Qed.

Lemma preserves_retrying X (f : World -> X) A wait more (fn : M A) :
  preserves f fn -> (forall s, preserves f (time_sleep s)) ->
  forall n, preserves f (retrying wait more n fn).
Proof.
  intros Hfn Hs. induction more as [|more IH]; intros n w; cbn [retrying];
    unfold try_except; specialize (Hfn w); destruct (fn w) as [[a|e] w1];
    cbn [snd] in *; try exact Hfn.
  unfold bind. rewrite time_sleep_ok. rewrite IH.
  rewrite (Hs (wait n) w1). exact Hfn.
Qed.

Lemma preserves_bind X (f : World -> X) A B (m : M A) (k : A -> M B) :
  preserves f m -> (forall a, preserves f (k a)) -> preserves f (bind m k).
Proof.
  intros Hm Hk w. unfold bind. specialize (Hm w).
  destruct (m w) as [[a|e] w1]; cbn [snd] in *; [|exact Hm].
  rewrite Hk. exact Hm.
Qed.

Lemma preserves_try_except X (f : World -> X) A (m : M A) (h : exn -> M A) :
  preserves f m -> (forall e, preserves f (h e)) -> preserves f (try_except m h).
Proof.
  intros Hm Hh w. unfold try_except. specialize (Hm w).
  destruct (m w) as [[a|e] w1]; cbn [snd] in *; [exact Hm|].
  rewrite Hh. exact Hm.
Qed.

Lemma preserves_downstream_statement : preserves downstream session_statement.
Proof.
  intros w. unfold session_statement, db_round_trip.
  destruct (session_failed w); [reflexivity|].
  destruct (db_fault w (db_round_trips w)); reflexivity.
Qed.

Lemma preserves_downstream_commit : preserves downstream session_commit.
Proof.
  intros w. unfold session_commit.
  destruct (session_failed w); [reflexivity|].
  apply preserves_try_except.
  - apply preserves_bind.
    + intros w0. unfold db_round_trip.
      destruct (db_fault w0 (db_round_trips w0)); reflexivity.
    + intros _ w0.
      destruct (flush (session_new w0) (customer_table w0)); reflexivity.
  - intros e. apply preserves_bind; [|intros _ w0; reflexivity].
    intros w0. reflexivity.
Qed.

Lemma preserves_downstream_save c : preserves downstream (save_customer c).
Proof.
  unfold save_customer. apply preserves_bind.
  - intros w. unfold session_add, modify. repeat case_decide; reflexivity.
  - intros _. apply preserves_bind; [apply preserves_downstream_commit|].
    intros _. apply preserves_downstream_statement.
Qed.

Lemma preserves_downstream_query doc : preserves downstream (session_query_first doc).
Proof.
  intros w. rewrite query_cases. destruct (session_failed w); [reflexivity|].
  destruct (db_fault w (db_round_trips w)); reflexivity.
Qed.

Lemma preserves_table_query doc : preserves customer_table (session_query_first doc).
Proof.
  intros w. rewrite query_cases. destruct (session_failed w); [reflexivity|].
  destruct (db_fault w (db_round_trips w)); reflexivity.
Qed.

Lemma init_raises data :
  (exists k, In k fields /\ data !! k = None) \/ size data <> 6%nat ->
  exists e, dto.CustomerCreateDTO_init data = Raise e.
Proof.
  intros H. unfold dto.CustomerCreateDTO_init.
  destruct (data !! "document") eqn:E1; [|eauto].
  destruct (data !! "firstname") eqn:E2; [|eauto].
  destruct (data !! "lastname") eqn:E3; [|eauto].
  destruct (data !! "address") eqn:E4; [|eauto].
  destruct (data !! "phone") eqn:E5; [|eauto].
  destruct (data !! "email") eqn:E6; [|eauto].
  destruct (decide (size data = 6%nat)) as [Hs|Hs]; [|eauto].
  exfalso. destruct H as [(k & Hk & Hn)|H]; [|contradiction].
  cbn in Hk. intuition (subst; congruence).
Qed.

(** X11. A POST whose document is already in the table, the database
    answering the query, is answered 409 with "Customer already exists":
    the table is left as it was and nothing goes downstream (no registry
    query, no post, the breaker untouched); the query is the only round
    trip. *)
Theorem existing_document_conflicts :
  forall request data d w c,
    method request = POST ->
    json request = JsonObject data ->
    dto.CustomerCreateDTO_init data = Ok d ->
    dto.validate d = [] ->
    db_fault w (db_round_trips w) = None ->
    customer_table w !! dto.document d = Some c ->
    fst (create_customer request w)
      = Ok ([("error", JString "Customer already exists");
             ("createCustomerValid", JBool false)], 409) /\
    customer_table (snd (create_customer request w)) = customer_table w /\
    downstream (snd (create_customer request w)) = downstream w /\
    db_round_trips (snd (create_customer request w)) = S (db_round_trips w).
Proof.
  intros request data d w c Hm Hj Hd Hv Hf Ht.
  rewrite (create_customer_POST request w Hm), Hj, Hd, Hv, query_cases.
  cbn [db_fault db_round_trips SessionLocal modify snd set_session_new
         set_session_failed session_failed customer_table].
  rewrite Hf, Ht. repeat split.
Qed.

(** X12. A POST whose body is [null], lacks one of the six keys or carries
    any other key fails in the constructor and is answered 500 with
    [createCustomerValid] false, not 400; the world only gains the error
    log line: no session is opened, nothing is stored or sent. *)
Theorem malformed_body_is_a_server_error :
  forall request w,
    method request = POST ->
    (json request = JsonNull \/
     exists data, json request = JsonObject data /\
       ((exists k, In k fields /\ data !! k = None) \/ size data <> 6%nat)) ->
    exists e,
      create_customer request w
        = (Ok ([("error", JStr e); ("createCustomerValid", JBool false)], 500),
           set_journal (journal w ++ [Log ERROR "Error creating customer" e]) w).
Proof.
  intros request w Hm [Hj|(data & Hj & Hbad)];
    rewrite (create_customer_POST request w Hm), Hj.
  - eexists. reflexivity.
  - destruct (init_raises data Hbad) as [e He]. rewrite He.
    exists e. reflexivity.
Qed.

Lemma preserves_table_body customer_id :
  preserves customer_table (create_user_in_login_service_body customer_id).
Proof.
  intros w. rewrite body_cases.
  destruct (eureka w (eureka_calls w) "LOGIN-SERVICE") as [[|i l]|e];
    try reflexivity.
  destruct (login_service w (posts w)) as [code|e]; [|reflexivity].
  destruct ((400 <=? code) && (code <? 600)); reflexivity.
Qed.

Lemma table_after_provisioning customer_id w :
  customer_table (after_provisioning customer_id w) = customer_table w.
Proof.
  unfold after_provisioning.
  pose proof (preserves_retrying _ customer_table _ (wait_exponential 1 2 10) 2
                _ (preserves_table_body customer_id)
                (fun s w0 => eq_refl) 1 w) as H.
  change (retrying (wait_exponential 1 2 10) 2 1
            (create_user_in_login_service_body customer_id))
    with (create_user_in_login_service customer_id) in H.
  destruct (create_user_in_login_service customer_id w) as [[[]|e] w1];
    exact H.
Qed.

Lemma created_inv request w body w' :
  create_customer request w = (Ok (body, 201), w') ->
  exists data d,
    method request = POST /\
    json request = JsonObject data /\
    dto.CustomerCreateDTO_init data = Ok d /\
    dto.validate d = [] /\
    body = [("createCustomerValid", JBool true)] /\
    customer_table w' !! dto.document d = Some (Customer_of d).
Proof.
  intros H. destruct (method request) eqn:Hm;
    [|unfold create_customer in H; rewrite Hm in H; discriminate].
  rewrite (create_customer_POST request w Hm) in H.
  destruct (json request) as [data| |e]; try discriminate.
  destruct (dto.CustomerCreateDTO_init data) as [d|e] eqn:Hd; try discriminate.
  destruct (dto.validate d) as [|m ms] eqn:Hv; try discriminate.
  rewrite query_cases in H.
  cbn [db_fault db_round_trips SessionLocal modify snd set_session_new
         set_session_failed session_failed customer_table] in H.
  destruct (db_fault w (db_round_trips w)); try discriminate.
  destruct (customer_table w !! dto.document d) eqn:Ht; try discriminate.
  match type of H with
  | context [execute_with_retry ?m ?w0] =>
      destruct (execute_with_retry m w0) as [[[]|e] w2] eqn:Hs; try discriminate
  end.
  inversion H; subst. exists data, d. repeat split; auto.
  cbn [session_close modify snd set_session_new set_session_failed
         customer_table].
  rewrite table_after_provisioning.
  apply (retrying_save (Customer_of d) _ _ _ _ w2) in Hs; [exact Hs|].
  right. split; [reflexivity|]. right. left. cbn. auto.
Qed.

(** X13. When the write fails at all three attempts the request is
    answered 500 carrying the [RetryError], the session is closed, and the
    provisioning step is not reached: no registry query, no post, the
    breaker untouched. *)
Theorem store_failure_is_a_server_error :
  forall request data d w w1 e w2,
    method request = POST ->
    json request = JsonObject data ->
    dto.CustomerCreateDTO_init data = Ok d ->
    dto.validate d = [] ->
    session_query_first (dto.document d) (snd (SessionLocal w)) = (Ok None, w1) ->
    execute_with_retry (save_customer (Customer_of d)) w1 = (Raise e, w2) ->
    create_customer request w
      = (Ok ([("error", JStr e); ("createCustomerValid", JBool false)], 500),
         snd (logger ERROR "Error creating customer" e (snd (session_close w2)))) /\
    (exists e', e = RetryError e') /\
    downstream (snd (create_customer request w)) = downstream w.
Proof.
  intros request data d w w1 e w2 Hm Hj Hd Hv Hq Hs.
  assert (Hc : create_customer request w = failed e (snd (session_close w2))).
  { rewrite (create_customer_POST request w Hm), Hj, Hd, Hv, Hq, Hs.
    reflexivity. }
  split; [exact Hc|]. split.
  - destruct (retrying_raises _ _ _ _ 1 w1 e
                ltac:(unfold execute_with_retry, retry in Hs; cbn [Nat.sub] in Hs;
                      rewrite Hs; reflexivity)) as (e' & _ & He & _).
    eauto.
  - rewrite Hc. unfold failed. cbn [snd].
    change (downstream (snd (logger ERROR "Error creating customer" e
                               (snd (session_close w2)))))
      with (downstream w2).
    pose proof (preserves_retrying _ downstream _ (wait_exponential 1 2 10) 2
                  _ (preserves_downstream_save (Customer_of d))
                  (fun s w0 => eq_refl) 1 w1) as H2.
    change (retrying (wait_exponential 1 2 10) 2 1 (save_customer (Customer_of d)))
      with (execute_with_retry (save_customer (Customer_of d))) in H2.
    rewrite Hs in H2. cbn [snd] in H2. rewrite H2.
    pose proof (preserves_downstream_query (dto.document d) (snd (SessionLocal w)))
      as H1.
    rewrite Hq in H1. exact H1.
Qed.

(** X14. A 201 answer means the row is stored: whenever [create_customer]
    answers 201, the request was a POST of a JSON object with the six
    fields, all non-empty, and the table of the resulting world holds,
    under the document, the row with exactly the posted field values. *)
Theorem created_row_is_stored :
  forall request w body w',
    create_customer request w = (Ok (body, 201), w') ->
    exists data d,
      json request = JsonObject data /\
      dto.CustomerCreateDTO_init data = Ok d /\
      dto.validate d = [] /\
      customer_table w' !! dto.document d = Some (Customer_of d).
Proof.
  intros request w body w' H.
  destruct (created_inv request w body w' H)
    as (data & d & _ & Hj & Hd & Hv & _ & Ht).
  exists data, d. auto.
Qed.

(** X15. Creation is not repeated: after a 201, the same request sent again
    in the world the first one left, the database answering the query, is
    answered 409 and the table is left as it was. *)
Theorem second_creation_conflicts :
  forall request w body w',
    create_customer request w = (Ok (body, 201), w') ->
    db_fault w' (db_round_trips w') = None ->
    fst (create_customer request w')
      = Ok ([("error", JString "Customer already exists");
             ("createCustomerValid", JBool false)], 409) /\
    customer_table (snd (create_customer request w')) = customer_table w'.
Proof.
  intros request w body w' H Hf.
  destruct (created_inv request w body w' H)
    as (data & d & Hm & Hj & Hd & Hv & _ & Ht).
  rewrite (create_customer_POST request w' Hm), Hj, Hd, Hv, query_cases.
  cbn [db_fault db_round_trips SessionLocal modify snd set_session_new
         set_session_failed session_failed customer_table].
  rewrite Hf, Ht. split; reflexivity.
Qed.

Lemma existing_document_conflicts_witness :
  fst (create_customer ana ana_registered)
    = Ok ([("error", JString "Customer already exists");
           ("createCustomerValid", JBool false)], 409) /\
  customer_table (snd (create_customer ana ana_registered))
    = customer_table ana_registered /\
  downstream (snd (create_customer ana ana_registered))
    = downstream ana_registered /\
  db_round_trips (snd (create_customer ana ana_registered))
    = S (db_round_trips ana_registered).
Proof.
  apply (existing_document_conflicts ana
           (body_of "123" "Ana" "Li" "x" "555" "a@b.c") ana_dto ana_registered
           (Customer_of ana_dto)); vm_compute; reflexivity.
Defined.

Lemma malformed_body_is_a_server_error_witness :
  exists e,
    create_customer null_post quiet_world
      = (Ok ([("error", JStr e); ("createCustomerValid", JBool false)], 500),
         set_journal
           (journal quiet_world ++ [Log ERROR "Error creating customer" e])
           quiet_world).
Proof.
  apply (malformed_body_is_a_server_error null_post quiet_world eq_refl).
  left. reflexivity.
Defined.

Lemma store_failure_is_a_server_error_witness :
  create_customer ana failing_store_world
    = (Ok ([("error", JStr (RetryError PendingRollbackError));
            ("createCustomerValid", JBool false)], 500),
       snd (logger ERROR "Error creating customer" (RetryError PendingRollbackError)
              (snd (session_close
                      (snd (execute_with_retry (save_customer (Customer_of ana_dto))
                              (snd (session_query_first "123"
                                      (snd (SessionLocal failing_store_world))))))))))
  /\ (exists e', RetryError PendingRollbackError = RetryError e') /\
  downstream (snd (create_customer ana failing_store_world))
    = downstream failing_store_world.
Proof.
  apply (store_failure_is_a_server_error ana
           (body_of "123" "Ana" "Li" "x" "555" "a@b.c") ana_dto
           failing_store_world
           (snd (session_query_first "123" (snd (SessionLocal failing_store_world))))
           (RetryError PendingRollbackError)
           (snd (execute_with_retry (save_customer (Customer_of ana_dto))
                   (snd (session_query_first "123"
                           (snd (SessionLocal failing_store_world)))))));
    vm_compute; reflexivity.
Defined.

(** A failed commit is not retried against the database: in
    [failing_store_world] the query and the first commit are the only two
    round trips, and the second and third attempts find the session waiting
    for a rollback. *)
Example failed_commit_is_final :
  db_round_trips (snd (create_customer ana failing_store_world)) = 2%nat /\
  fst (create_customer ana failing_store_world)
    = Ok ([("error", JStr (RetryError PendingRollbackError));
           ("createCustomerValid", JBool false)], 500).
Proof. split; vm_compute; reflexivity. Qed.

Lemma created_row_is_stored_witness :
  exists data d,
    json ana = JsonObject data /\
    dto.CustomerCreateDTO_init data = Ok d /\
    dto.validate d = [] /\
    customer_table ana_registered !! dto.document d = Some (Customer_of d).
Proof.
  apply (created_row_is_stored ana quiet_world
           [("createCustomerValid", JBool true)] ana_registered).
  vm_compute. reflexivity.
Defined.

Lemma second_creation_conflicts_witness :
  fst (create_customer ana ana_registered)
    = Ok ([("error", JString "Customer already exists");
           ("createCustomerValid", JBool false)], 409) /\
  customer_table (snd (create_customer ana ana_registered))
    = customer_table ana_registered.
Proof.
  apply (second_creation_conflicts ana quiet_world
           [("createCustomerValid", JBool true)] ana_registered);
    vm_compute; reflexivity.
Defined.

(** ** The lookup view *)

Lemma find_customer_by_id_GET request w :
  lookup.method request = lookup.GET ->
  find_customer_by_id request w =
    match lookup.args request !! "customerid" with
    | None => (Ok ([("error", JString "customerid parameter is required")], 400), w)
    | Some id =>
        if dto.not_ id
        then (Ok ([("error", JString "customerid parameter is required")], 400), w)
        else
          match execute_with_retry (find_customer id) (snd (SessionLocal w)) with
          | (Ok None, w1) =>
              (Ok ([("error", JString "Customer not found")], 404),
               snd (session_close w1))
          | (Ok (Some customer), w1) =>
              (Ok (jsonify (CustomerResponseDTO.to_dict (response_of customer)),
                   200),
               snd (session_close w1))
          | (Raise e, w1) => lookup_failed e (snd (session_close w1))
          end
    end.
Proof.
  intros Hm. unfold find_customer_by_id. rewrite Hm. unfold try_except at 1.
  destruct (lookup.args request !! "customerid") as [id|]; [|reflexivity].
  destruct (dto.not_ id); [reflexivity|].
  unfold bind at 1. set (w0 := snd (SessionLocal w)).
  change (SessionLocal w) with (Ok tt, w0).
  unfold try_finally. unfold bind at 1.
  destruct (execute_with_retry (find_customer id) w0) as [[[c|]|e] w1];
    reflexivity.
Qed.

Lemma preserves_find id : preserves stored_and_downstream (find_customer id).
Proof.
  intros w. unfold find_customer. rewrite query_cases.
  destruct (session_failed w); [reflexivity|].
  destruct (db_fault w (db_round_trips w)); reflexivity.
Qed.

Lemma find_retry_preserves id w :
  stored_and_downstream (snd (execute_with_retry (find_customer id) w))
    = stored_and_downstream w.
Proof.
  apply (preserves_retrying _ stored_and_downstream _ (wait_exponential 1 2 10)
           2 _ (preserves_find id) (fun s w0 => eq_refl) 1 w).
Qed.

(** X16. [find_customer_by_id] never raises and only reads: every request
    in every world is answered 200, 400, 404 or 500, and the customer
    table, the posts made, the registry queries made and the breaker are
    the same after it as before. *)
Theorem find_customer_by_id_only_reads :
  forall request w,
    (exists body status,
       fst (find_customer_by_id request w) = Ok (body, status) /\
       (status = 200 \/ status = 400 \/ status = 404 \/ status = 500)) /\
    customer_table (snd (find_customer_by_id request w)) = customer_table w /\
    downstream (snd (find_customer_by_id request w)) = downstream w.
Proof.
  intros request w.
  assert (H : (exists body status,
                 fst (find_customer_by_id request w) = Ok (body, status) /\
                 (status = 200 \/ status = 400 \/ status = 404 \/ status = 500)) /\
              stored_and_downstream (snd (find_customer_by_id request w))
                = stored_and_downstream w).
  { destruct (lookup.method request) eqn:Hm.
    - rewrite (find_customer_by_id_GET request w Hm).
      destruct (lookup.args request !! "customerid") as [id|];
        [|split; [eexists; eexists; split; [reflexivity | auto] | reflexivity]].
      destruct (dto.not_ id);
        [split; [eexists; eexists; split; [reflexivity | auto] | reflexivity]|].
      pose proof (find_retry_preserves id (snd (SessionLocal w))) as Hp.
      destruct (execute_with_retry (find_customer id) (snd (SessionLocal w)))
        as [[[c|]|e] w1]; cbn [snd] in Hp;
        (split; [eexists; eexists; split; [reflexivity | auto] | exact Hp]).
    - unfold find_customer_by_id. rewrite Hm.
      split; [eexists; eexists; split; [reflexivity | auto] | reflexivity]. }
  destruct H as [H1 H2]. split; [exact H1|].
  unfold stored_and_downstream in H2.
  pose proof (f_equal fst H2) as Ht. pose proof (f_equal snd H2) as Hd.
  cbn [fst snd] in Ht, Hd. split; [exact Ht | exact Hd].
Qed.

(** X17. With a non-empty [customerid] and a database that answers the
    query, the lookup answers from the table: 404 "Customer not found" when
    no row has that document, otherwise 200 with the six fields of the row,
    in the order of [to_dict]. *)
Theorem lookup_answers_from_table :
  forall request w id,
    lookup.method request = lookup.GET ->
    lookup.args request !! "customerid" = Some id ->
    id <> "" ->
    db_fault w (db_round_trips w) = None ->
    fst (find_customer_by_id request w) =
      match customer_table w !! id with
      | None => Ok ([("error", JString "Customer not found")], 404)
      | Some c =>
          Ok ([("document", JString (models.document c));
               ("firstname", JString (models.firstname c));
               ("lastname", JString (models.lastname c));
               ("address", JString (models.address c));
               ("phone", JString (models.phone c));
               ("email", JString (models.email c))], 200)
      end.
Proof.
  intros request w id Hm Ha Hid Hf.
  rewrite (find_customer_by_id_GET request w Hm), Ha.
  destruct (dto.not_ id) eqn:En; [apply not_empty in En; contradiction|].
  assert (Hq : find_customer id (snd (SessionLocal w)) =
               (Ok (customer_table w !! id),
                set_db_round_trips (S (db_round_trips w)) (snd (SessionLocal w)))).
  { unfold find_customer. rewrite query_cases.
    cbn [db_fault db_round_trips SessionLocal modify snd set_session_new
           set_session_failed session_failed customer_table]. rewrite Hf. reflexivity. }
  unfold execute_with_retry. rewrite (retry_first_success _ _ _ _ _ _ _ Hq).
  destruct (customer_table w !! id) as [c|]; reflexivity.
Qed.

(** X18. A lookup without a [customerid] parameter, or with an empty one,
    is answered 400 and the world is left exactly as it was: no session is
    opened and the database is not asked. *)
Theorem lookup_requires_customerid :
  forall request w,
    lookup.method request = lookup.GET ->
    lookup.args request !! "customerid" = None \/
    lookup.args request !! "customerid" = Some "" ->
    find_customer_by_id request w
      = (Ok ([("error", JString "customerid parameter is required")], 400), w).
Proof.
  intros request w Hm [Ha|Ha];
    rewrite (find_customer_by_id_GET request w Hm), Ha; reflexivity.
Qed.

Lemma validate_nil_document d : dto.validate d = [] -> dto.document d <> "".
Proof.
  destruct d as [d f l a p e]. unfold dto.validate. cbn.
  destruct d; [|discriminate]. cbn. unfold dto.append_if_not.
  destruct (dto.not_ f), (dto.not_ l), (dto.not_ a), (dto.not_ p), (dto.not_ e);
    discriminate.
Qed.

(** X19. What was created can be looked up: after a 201, a lookup of the
    posted document in the world the creation left, the database answering
    the query, is answered 200 with the six posted field values. *)
Theorem created_customer_is_found :
  forall request w body w',
    create_customer request w = (Ok (body, 201), w') ->
    db_fault w' (db_round_trips w') = None ->
    exists data d,
      json request = JsonObject data /\
      dto.CustomerCreateDTO_init data = Ok d /\
      forall q,
        lookup.method q = lookup.GET ->
        lookup.args q !! "customerid" = Some (dto.document d) ->
        fst (find_customer_by_id q w') =
          Ok ([("document", JString (dto.document d));
               ("firstname", JString (dto.firstname d));
               ("lastname", JString (dto.lastname d));
               ("address", JString (dto.address d));
               ("phone", JString (dto.phone d));
               ("email", JString (dto.email d))], 200).
Proof.
  intros request w body w' H Hf.
  destruct (created_inv request w body w' H)
    as (data & d & Hm & Hj & Hd & Hv & _ & Ht).
  exists data, d. split; [exact Hj|]. split; [exact Hd|].
  intros q Hq Ha.
  rewrite (find_customer_by_id_GET q w' Hq), Ha.
  destruct (dto.not_ (dto.document d)) eqn:En;
    [apply not_empty in En; apply validate_nil_document in Hv; contradiction|].
  assert (Hfind : find_customer (dto.document d) (snd (SessionLocal w')) =
               (Ok (Some (Customer_of d)),
                set_db_round_trips (S (db_round_trips w')) (snd (SessionLocal w')))).
  { unfold find_customer. rewrite query_cases.
    cbn [db_fault db_round_trips SessionLocal modify snd set_session_new
           set_session_failed session_failed customer_table]. rewrite Hf, Ht. reflexivity. }
  unfold execute_with_retry. rewrite (retry_first_success _ _ _ _ _ _ _ Hfind).
  reflexivity.
Qed.

Lemma lookup_answers_from_table_witness :
  fst (find_customer_by_id find_123 ana_registered) =
    match customer_table ana_registered !! "123" with
    | None => Ok ([("error", JString "Customer not found")], 404)
    | Some c =>
        Ok ([("document", JString (models.document c));
             ("firstname", JString (models.firstname c));
             ("lastname", JString (models.lastname c));
             ("address", JString (models.address c));
             ("phone", JString (models.phone c));
             ("email", JString (models.email c))], 200)
    end.
Proof.
  apply (lookup_answers_from_table find_123 ana_registered "123").
  - reflexivity.
  - vm_compute. reflexivity.
  - discriminate.
  - vm_compute. reflexivity.
Defined.

Example scenario_4 :
  fst (find_customer_by_id
         {| lookup.method := lookup.GET; lookup.args := {[ "customerid" := "999" ]} |}
         ana_registered)
    = Ok ([("error", JString "Customer not found")], 404).
Proof. vm_compute. reflexivity. Qed.

Lemma lookup_requires_customerid_witness :
  find_customer_by_id find_nothing quiet_world
    = (Ok ([("error", JString "customerid parameter is required")], 400),
       quiet_world).
Proof.
  apply (lookup_requires_customerid find_nothing quiet_world eq_refl).
  left. vm_compute. reflexivity.
Defined.

Lemma created_customer_is_found_witness :
  exists data d,
    json ana = JsonObject data /\
    dto.CustomerCreateDTO_init data = Ok d /\
    forall q,
      lookup.method q = lookup.GET ->
      lookup.args q !! "customerid" = Some (dto.document d) ->
      fst (find_customer_by_id q ana_registered) =
        Ok ([("document", JString (dto.document d));
             ("firstname", JString (dto.firstname d));
             ("lastname", JString (dto.lastname d));
             ("address", JString (dto.address d));
             ("phone", JString (dto.phone d));
             ("email", JString (dto.email d))], 200).
Proof.
  apply (created_customer_is_found ana quiet_world
           [("createCustomerValid", JBool true)] ana_registered);
    vm_compute; reflexivity.
Defined.

(** ** dto.py beyond the claims *)

(** X20. [validate] returns the empty list exactly when all six fields are
    non-empty; it never returns more than six messages. *)
Theorem validate_accepts_exactly_complete_input :
  forall d,
    (dto.validate d = [] <->
     dto.document d <> "" /\ dto.firstname d <> "" /\ dto.lastname d <> "" /\
     dto.address d <> "" /\ dto.phone d <> "" /\ dto.email d <> "") /\
    (length (dto.validate d) <= 6)%nat.
Proof.
  intros [d f l a p e]. split.
  - destruct d, f, l, a, p, e; cbn; split; intros H;
      try discriminate; try (repeat split; discriminate);
      destruct H as (H1 & H2 & H3 & H4 & H5 & H6); congruence.
  - destruct d, f, l, a, p, e; cbn; lia.
Qed.

(** X21. The dictionary built by [CustomerResponseDTO.to_dict] has exactly
    the six keys the creation constructor takes: read as a JSON object it
    is accepted by [CustomerCreateDTO] and gives back the same six
    values. *)
Theorem to_dict_feeds_the_constructor :
  forall r : CustomerResponseDTO.t,
    dto.CustomerCreateDTO_init (list_to_map (CustomerResponseDTO.to_dict r))
      = Ok {| dto.document := CustomerResponseDTO.document r;
              dto.firstname := CustomerResponseDTO.firstname r;
              dto.lastname := CustomerResponseDTO.lastname r;
              dto.address := CustomerResponseDTO.address r;
              dto.phone := CustomerResponseDTO.phone r;
              dto.email := CustomerResponseDTO.email r |} /\
    List.map fst (CustomerResponseDTO.to_dict r) = fields.
Proof.
  intros [d f l a p e]. split; [|reflexivity].
  vm_compute. reflexivity.
Qed.

(** ** The database health view *)

(** X22. [db_health] never raises: it answers 200 with status UP exactly
    when both the connection and the query go through, and otherwise 503
    with status DOWN and the error of the step that failed; the customer
    table is not touched. *)
Theorem db_health_reports_the_database :
  forall w,
    (exists body status,
       fst (db_health w) = Ok (body, status) /\
       (status = 200 /\ body = [("status", JString "UP")] /\
        db_fault w (db_round_trips w) = None /\
        db_fault w (S (db_round_trips w)) = None
        \/
        status = 503 /\
        exists e, body = [("status", JString "DOWN"); ("error", JStr e)] /\
          (db_fault w (db_round_trips w) = Some e \/
           db_fault w (db_round_trips w) = None /\
           db_fault w (S (db_round_trips w)) = Some e))) /\
    customer_table (snd (db_health w)) = customer_table w.
Proof.
  intros w. unfold db_health, try_except, bind, db_round_trip.
  destruct (db_fault w (db_round_trips w)) as [e|] eqn:E1.
  { split; [|reflexivity]. eexists; eexists. split; [reflexivity|].
    right. split; [reflexivity|]. exists e. auto. }
  cbn [db_fault db_round_trips set_db_round_trips].
  destruct (db_fault w (S (db_round_trips w))) as [e|] eqn:E2;
    (split; [|reflexivity]); eexists; eexists; (split; [reflexivity|]).
  - right. split; [reflexivity|]. exists e. auto.
  - left. auto.
Qed.

(** ** Recovery of the breaker *)

(** X23. A successful trial gives the breaker a fresh start: from an OPEN
    breaker produced by calls, once the trial call has returned, any
    further series of calls in which fewer than [failure_threshold] calls
    raise leaves the breaker CLOSED, with [failure_count] equal to the
    number of those raising calls. *)
Theorem recovered_breaker_counts_from_zero :
  forall (threshold timeout : Z) (self : CircuitBreaker) (t : Z)
         (A : Type) (func : M A) (w : World) a self1 w1
         (trace : list bool) (self2 : CircuitBreaker),
    reachable threshold timeout self ->
    state self = OPEN ->
    last_failure_time self = Some t ->
    recovery_timeout self < clock w - t ->
    call func (self, w) = (Ok a, (self1, w1)) ->
    @calls_trace A self1 trace self2 ->
    failures trace < threshold ->
    state self2 = CLOSED /\ failure_count self2 = failures trace.
Proof.
  intros threshold timeout self t A func w a self1 w1 trace self2
    Hr Es El Ht Hcall Htr Hlt.
  apply reachable_inv in Hr. destruct Hr as (Hth & _).
  rewrite (call_open_trial func self w t Es El Ht) in Hcall.
  destruct (func w) as [[a0|e] w0]; inversion Hcall; subst; clear Hcall.
  apply closed_trace in Htr; cbn; [|reflexivity|lia].
  destruct Htr as (H1 & H2 & _). cbn in H2. split; [exact H1 | lia].
Qed.

Lemma recovered_breaker_counts_from_zero_witness :
  state {| failure_threshold := 5; recovery_timeout := 60; failure_count := 1;
           last_failure_time := Some 100; state := CLOSED |} = CLOSED /\
  failure_count {| failure_threshold := 5; recovery_timeout := 60;
                   failure_count := 1; last_failure_time := Some 100;
                   state := CLOSED |}
    = failures [true; false].
Proof.
  apply (recovered_breaker_counts_from_zero 5 60 tripped_breaker 0 unit
           (ret tt) later tt
           {| failure_threshold := 5; recovery_timeout := 60; failure_count := 0;
              last_failure_time := Some 0; state := CLOSED |} later
           [true; false]).
  - apply tripped_breaker_reachable.
  - reflexivity.
  - reflexivity.
  - cbn. lia.
  - reflexivity.
  - eapply calls_trace_cons with (func := ret tt) (w := later) (r := Ok tt);
      [reflexivity|].
    eapply calls_trace_cons with (func := raise boom) (w := later) (r := Raise boom);
      [reflexivity|].
    apply calls_trace_nil.
  - vm_compute. reflexivity.
Defined.

(** ** A failed commit *)

Lemma save_fails_at_commit c w e :
  session_failed w = false ->
  session_new w = [] ->
  customer_table w !! models.document c = None ->
  db_fault w (db_round_trips w) = Some e ->
  exists w', save_customer c w = (Raise e, w') /\
    session_failed w' = true /\
    customer_table w' = customer_table w /\
    db_round_trips w' = S (db_round_trips w).
Proof.
  intros Hf Hn Ht He. unfold save_customer. unfold bind at 1.
  unfold session_add, modify. rewrite Hn, Ht.
  rewrite decide_False by set_solver. rewrite decide_False by congruence.
  unfold bind at 1. unfold session_commit.
  cbn [session_failed set_session_new]. rewrite Hf.
  unfold try_except, bind, db_round_trip.
  cbn [db_fault db_round_trips set_session_new]. rewrite He.
  eexists. split; [reflexivity|]. cbn. auto.
Qed.

Lemma save_on_failed_session c w :
  session_failed w = true ->
  exists w', save_customer c w = (Raise PendingRollbackError, w') /\
    session_failed w' = true /\
    customer_table w' = customer_table w /\
    db_round_trips w' = db_round_trips w.
Proof.
  intros Hf. unfold save_customer. unfold bind at 1.
  unfold session_add, modify.
  destruct (decide (c ∈ session_new w));
    [|destruct (decide (customer_table w !! models.document c = Some c))];
    unfold bind at 1; unfold session_commit;
    cbn [session_failed set_session_new]; rewrite Hf;
    eexists; (split; [reflexivity|]); cbn; auto.
Qed.

(** X24. A failed commit is final for the request: for a valid POST whose
    document is new, when the database answers the query and fails the
    first commit, the second and third attempts of the write find the
    session waiting for a rollback and do not reach the database. The
    answer is 500 carrying [RetryError] around [PendingRollbackError],
    the table is unchanged, and the query and the failed commit are the
    only two round trips. *)
Theorem failed_commit_is_not_retried :
  forall request data d w e,
    method request = POST ->
    json request = JsonObject data ->
    dto.CustomerCreateDTO_init data = Ok d ->
    dto.validate d = [] ->
    customer_table w !! dto.document d = None ->
    db_fault w (db_round_trips w) = None ->
    db_fault w (S (db_round_trips w)) = Some e ->
    fst (create_customer request w)
      = Ok ([("error", JStr (RetryError PendingRollbackError));
             ("createCustomerValid", JBool false)], 500) /\
    customer_table (snd (create_customer request w)) = customer_table w /\
    db_round_trips (snd (create_customer request w)) = S (S (db_round_trips w)).
Proof.
  intros request data d w e Hm Hj Hd Hv Ht Hq He.
  rewrite (create_customer_POST request w Hm), Hj, Hd, Hv, query_cases.
  cbn [db_fault db_round_trips SessionLocal modify snd set_session_new
         set_session_failed session_failed customer_table].
  rewrite Hq, Ht.
  set (w1 := set_db_round_trips (S (db_round_trips w))
               (set_session_failed false (set_session_new [] w))).
  destruct (save_fails_at_commit (Customer_of d) w1 e
              eq_refl eq_refl Ht He) as (w2 & S1 & F1 & T1 & R1).
  set (w2s := snd (time_sleep (wait_exponential 1 2 10 1) w2)).
  destruct (save_on_failed_session (Customer_of d) w2s F1)
    as (w3 & S2 & F2 & T2 & R2).
  set (w3s := snd (time_sleep (wait_exponential 1 2 10 2) w3)).
  destruct (save_on_failed_session (Customer_of d) w3s F2)
    as (w4 & S3 & F3 & T3 & R3).
  unfold execute_with_retry.
  rewrite (retry_three_failures _ _ _ _ _ _ _ _ _ _ S1 S2 S3).
  unfold failed. cbn [fst snd session_close modify logger set_journal
    set_session_failed set_session_new customer_table db_round_trips].
  split; [reflexivity|]. split.
  - rewrite T3. change (customer_table w3s) with (customer_table w3).
    rewrite T2. change (customer_table w2s) with (customer_table w2).
    rewrite T1. reflexivity.
  - rewrite R3. change (db_round_trips w3s) with (db_round_trips w3).
    rewrite R2. change (db_round_trips w2s) with (db_round_trips w2).
    rewrite R1. reflexivity.
Qed.

Lemma failed_commit_is_not_retried_witness :
  fst (create_customer ana failing_store_world)
    = Ok ([("error", JStr (RetryError PendingRollbackError));
           ("createCustomerValid", JBool false)], 500) /\
  customer_table (snd (create_customer ana failing_store_world))
    = customer_table failing_store_world /\
  db_round_trips (snd (create_customer ana failing_store_world))
    = S (S (db_round_trips failing_store_world)).
Proof.
  apply (failed_commit_is_not_retried ana
           (body_of "123" "Ana" "Li" "x" "555" "a@b.c") ana_dto
           failing_store_world boom); vm_compute; reflexivity.
Defined.

(** One failed commit is enough: the database of [blip_world] answers
    again from the third round trip on, yet the request is answered 500 and
    nothing is stored or posted. *)
Example transient_commit_failure_is_not_recovered :
  fst (create_customer ana blip_world)
    = Ok ([("error", JStr (RetryError PendingRollbackError));
           ("createCustomerValid", JBool false)], 500) /\
  customer_table (snd (create_customer ana blip_world)) = ∅ /\
  db_round_trips (snd (create_customer ana blip_world)) = 2%nat /\
  posts (snd (create_customer ana blip_world)) = 0%nat.
Proof. repeat split; vm_compute; reflexivity. Qed.
